(** * Integration test runner: service orchestration and verdict

    A shallow embedding of [scripts/run_integration_tests.py]
    (class [IntegrationTestRunner]) and the properties of its
    orchestration run.

    Modelling conventions.
    - [self.technologies] is the registry, an insertion-ordered dict: an
      association list [list (string * TechnologyConfig)], read through
      [lookup_tech]; a missing key raises [KeyError].
    - [self.processes] is a dict keyed by service id: a [gmap string Popen].
    - The mutable part of the runner ([processes], [running]) is threaded
      through a state-and-exception monad [M]; the state also carries the
      chronological [trace] of the externally visible actions (process
      spawns, signals sent to processes, HTTP probes, error log lines) and a
      [clock] counting the points at which a pending signal is delivered.
    - Everything outside the script (file system, child processes, HTTP
      servers, signal delivery) is a [World] of oracles. A signal is
      delivered at a [checkpoint]: after a [start_service] call, a sleep or
      a probe of [run_integration_tests] has returned.
    - Python floats are IEEE 754 binary64: primitive floats.
    - A Python [str] is a string of code points below 256, one character
      each: what [repr] does to the others is not modelled.
    - [time.sleep] returns, except that a negative length raises
      [ValueError]; lengths beyond the range of the platform's clock are
      not modelled.
    - Writing the two result files and printing the summary either work or
      raise, as the [World] says; the rendered text is not modelled.
    - [logger.info] lines, the [timestamp] key and wall-clock durations are
      not modelled. *)

From Stdlib Require Import ZArith PrimFloat Uint63 Bool Floats QArith Qabs.
From stdpp Require Import base list strings gmap pretty.

Local Open Scope string_scope.
Local Open Scope Z_scope.

(** ** The registry *)

Record TechnologyConfig := {
  name : string;
  executable : string;
  port : Z;
  health_endpoint : string;
  startup_time : Z;
  dependencies : list string;
  critical : bool
}.

Definition default_technologies : list (string * TechnologyConfig) :=
  [ ("air-to-air-mesh",
     {| name := "Air-to-Air Mesh Network"; executable := "airmesh_demo";
        port := 8081; health_endpoint := "/health"; startup_time := 10;
        dependencies := []; critical := false |});
    ("neuro-fcc",
     {| name := "Neuro-FCC"; executable := "neuro_fcc_demo";
        port := 8082; health_endpoint := "/health"; startup_time := 5;
        dependencies := ["air-to-air-mesh"]; critical := true |});
    ("self-adaptive-rotor-blades",
     {| name := "Self-Adaptive Rotor Blades"; executable := "adaptive_rotor_demo";
        port := 8083; health_endpoint := "/health"; startup_time := 8;
        dependencies := ["neuro-fcc"]; critical := false |});
    ("cold-jet",
     {| name := "Cold-Jet"; executable := "cold_jet_demo";
        port := 8084; health_endpoint := "/health"; startup_time := 15;
        dependencies := ["self-adaptive-rotor-blades"]; critical := false |});
    ("local-gravity-field-navigation",
     {| name := "Local Gravity Field Navigation"; executable := "lgfn_demo";
        port := 8085; health_endpoint := "/health"; startup_time := 12;
        dependencies := ["cold-jet"]; critical := false |});
    ("predictive-airflow-engine",
     {| name := "Predictive Airflow Engine"; executable := "predictive_airflow_demo";
        port := 8086; health_endpoint := "/health"; startup_time := 20;
        dependencies := ["local-gravity-field-navigation"]; critical := false |});
    ("self-healing-avionics-bios",
     {| name := "Self-Healing Avionics BIOS"; executable := "self_healing_bios_demo";
        port := 8087; health_endpoint := "/health"; startup_time := 3;
        dependencies := []; critical := true |});
    ("vortex-shield",
     {| name := "Vortex Shield"; executable := "vortex_shield_demo";
        port := 8088; health_endpoint := "/health"; startup_time := 7;
        dependencies := ["neuro-fcc"]; critical := true |});
    ("air-swarm-os",
     {| name := "Air Swarm OS"; executable := "air_swarm_os_demo";
        port := 8089; health_endpoint := "/health"; startup_time := 25;
        dependencies := ["predictive-airflow-engine"; "self-healing-avionics-bios"];
        critical := false |});
    ("star-nav-core",
     {| name := "StarNav Core"; executable := "starnav_demo";
        port := 8090; health_endpoint := "/health"; startup_time := 30;
        dependencies := ["air-swarm-os"]; critical := false |}) ].

(** The hard-coded [start_order] of [run_integration_tests]. *)
Definition start_order : list string :=
  [ "air-to-air-mesh"; "self-healing-avionics-bios"; "neuro-fcc";
    "self-adaptive-rotor-blades"; "vortex-shield"; "cold-jet";
    "local-gravity-field-navigation"; "predictive-airflow-engine";
    "air-swarm-os"; "star-nav-core" ].

(** The hard-coded [stop_order] of [stop_all_services]. *)
Definition stop_order : list string :=
  [ "star-nav-core"; "air-swarm-os"; "predictive-airflow-engine";
    "local-gravity-field-navigation"; "cold-jet";
    "self-adaptive-rotor-blades"; "vortex-shield"; "neuro-fcc";
    "air-to-air-mesh"; "self-healing-avionics-bios" ].

(** The hard-coded [communication_pairs] of [run_integration_tests]. *)
Definition communication_pairs : list (string * string) :=
  [ ("neuro-fcc", "self-adaptive-rotor-blades");
    ("neuro-fcc", "vortex-shield");
    ("air-swarm-os", "star-nav-core");
    ("predictive-airflow-engine", "neuro-fcc") ].

(** ** The outside world *)

(** How a child process reacts to [stop_service]: it exits within the
    10 s grace window after [terminate()], it has to be killed, or one of
    the calls raises. *)
Inductive StopBehaviour :=
| ExitsOnTerminate
| NeedsKill
| StopRaises (msg : string).

(** A [subprocess.Popen] object. [survives_startup] is the answer of
    [process.poll() is None] after the start-up sleep; [stderr_text] is
    what [communicate()] returns when the process died. *)
Record Popen := {
  pid : Z;
  survives_startup : bool;
  stderr_text : string;
  on_stop : StopBehaviour
}.

(** What [save_results], [save_report] and the [print] calls of [main] do
    is the last part of the [World] below: [None] when the step works, the
    text of the exception ([OSError], [UnicodeEncodeError], ...) when it
    raises. *)

(** The result of a [requests] call: a response, or a raised exception
    (connection refused, timeout, ...) with its text. *)
Inductive HttpResult :=
| Response (status_code : Z) (text : string)
| RequestException (msg : string).

(** [response.json()] of the performance endpoint: the parsed dict (its
    keys with their values kept opaque), or an exception text when the body
    is no JSON object. *)
Inductive JsonBody :=
| JsonDict (items : gmap string string)
| JsonError (msg : string).

(** The answers of everything outside the script. The last three fields
    say what [save_results], [save_report] and the [print] calls of [main]
    do: [None] when the step goes through, the text of the exception
    ([OSError], [UnicodeEncodeError], ...) when it raises. *)
Record World := {
  executable_exists : string -> bool;
  popen : string -> Popen + string;
  health_response : Z -> string -> HttpResult;
  performance_response : Z -> HttpResult;
  performance_json : Z -> JsonBody;
  stress_response : Z -> nat -> HttpResult;
  communication_response : Z -> Z -> HttpResult;
  signal_at : nat -> bool;
  save_results_raises : option string;
  save_report_raises : option string;
  print_raises : option string
}.

(** ** Runner state, trace and monad *)

Inductive Event :=
| EvStartService (k : string)
| EvSpawn (k : string) (p : Z)
| EvTerminate (k : string)
| EvKill (k : string)
| EvHealth (k : string)
| EvPerformance (k : string)
| EvStress (k : string)
| EvCommunication (k1 k2 : string)
| EvSignal
| EvLogError (msg : string).

Record Runner := {
  processes : gmap string Popen;
  running : bool;
  clock : nat;
  trace : list Event
}.

(** The runner as [__init__] leaves it. *)
Definition init_runner : Runner :=
  {| processes := ∅; running := true; clock := 0%nat; trace := [] |}.

Inductive Exn :=
| KeyError (k : string)
| Exception (msg : string).

Inductive Outcome (A : Type) :=
| Ok (a : A)
| Raised (e : Exn).
Arguments Ok {A} a.
Arguments Raised {A} e.

Definition M (A : Type) : Type := Runner -> Outcome A * Runner.

(** [repr(s)] for a [str]: single quotes, unless the string holds a single
    quote and no double quote; the quote in use and the backslash are
    escaped, and so are the characters that are not printable. *)
Definition hexdigit (n : N) : Ascii.ascii :=
  Ascii.ascii_of_N (if (n <? 10)%N then 48 + n else 87 + n).

Definition printable (n : N) : bool :=
  ((32 <=? n) && (n <? 127) || (161 <=? n) && negb (n =? 173))%N.

Definition repr_char (quote c : Ascii.ascii) : string :=
  let n := Ascii.N_of_ascii c in
  let backslash := Ascii.ascii_of_N 92 in
  if Ascii.eqb c quote || Ascii.eqb c backslash then String backslash (String c "")
  else if (n =? 9)%N then String backslash "t"
  else if (n =? 10)%N then String backslash "n"
  else if (n =? 13)%N then String backslash "r"
  else if printable n then String c ""
  else String backslash
         ("x" ++ String (hexdigit (n / 16)) (String (hexdigit (n mod 16)) "")).

Fixpoint escape (quote : Ascii.ascii) (s : string) : string :=
  match s with
  | EmptyString => ""
  | String c s' => repr_char quote c ++ escape quote s'
  end.

Fixpoint contains (c : Ascii.ascii) (s : string) : bool :=
  match s with
  | EmptyString => false
  | String c' s' => Ascii.eqb c' c || contains c s'
  end.

Definition repr (s : string) : string :=
  let squote := Ascii.ascii_of_N 39 in
  let dquote := Ascii.ascii_of_N 34 in
  let quote := if contains squote s && negb (contains dquote s)
               then dquote else squote in
  String quote (escape quote s ++ String quote "").

(** [str(e)]: the text of a [KeyError] is the [repr] of its key. *)
Definition str_exn (e : Exn) : string :=
  match e with
  | KeyError k => repr k
  | Exception msg => msg
  end.

Definition ret {A} (a : A) : M A := fun r => (Ok a, r).

Definition bind {A B} (m : M A) (k : A -> M B) : M B :=
  fun r => match m r with
           | (Ok a, r') => k a r'
           | (Raised e, r') => (Raised e, r')
           end.

Definition raise {A} (e : Exn) : M A := fun r => (Raised e, r).

Declare Scope runner_scope.
Delimit Scope runner_scope with runner.
Notation "'do' x <- m ; k" := (bind m (fun x => k))
  (at level 10, x name, m at level 100, k at level 200) : runner_scope.
Notation "m1 ;; m2" := (bind m1 (fun _ => m2))
  (at level 100, m2 at level 200, right associativity) : runner_scope.
Local Open Scope runner_scope.

Definition emit (e : Event) : M unit :=
  fun r => (Ok tt, {| processes := processes r; running := running r;
                      clock := clock r; trace := trace r ++ [e] |}).

Definition get_processes : M (gmap string Popen) := fun r => (Ok (processes r), r).

Definition set_processes (ps : gmap string Popen) : M unit :=
  fun r => (Ok tt, {| processes := ps; running := running r;
                      clock := clock r; trace := trace r |}).

Definition get_running : M bool := fun r => (Ok (running r), r).

Definition set_running (b : bool) : M unit :=
  fun r => (Ok tt, {| processes := processes r; running := b;
                      clock := clock r; trace := trace r |}).

Definition logger_error (msg : string) : M unit := emit (EvLogError msg).

(** ** Probe results and the verdict record *)

(** Python's [a / b * 100] on two non-negative ints below 2^53: both
    convert exactly, and the quotient and the product are each rounded to
    the nearest binary64. *)
Definition float_of_Z (z : Z) : float := of_uint63 (Uint63.of_Z z).

Definition percentage (num den : Z) : float :=
  (float_of_Z num / float_of_Z den * 100)%float.

(** The dict returned by [run_stress_test] on its normal path. *)
Module Stress.
Record t := {
  total_requests : Z;
  successful_requests : Z;
  success_rate : float;
  passed : bool
}.
End Stress.

(** [tech_results["tests"]]: [performance] and [stress] are present only
    for a healthy service; a dict [{"error": ...}] of [run_stress_test] is
    [inr]. *)
Record TechResults := {
  tr_name : string;
  health_check : bool * string;
  performance : option (gmap string string);
  stress : option (Stress.t + string)
}.

(** The [results] dict of [run_integration_tests]. The last three keys are
    created late in the run, so each is optional. *)
Record Results := {
  total_tests : Z;
  passed_tests : Z;
  failed_tests : Z;
  technologies_results : gmap string TechResults;
  communication_tests : option (gmap string bool);
  success_rate : option float;
  overall_passed : option bool
}.

Definition initial_results : Results :=
  {| total_tests := 0; passed_tests := 0; failed_tests := 0;
     technologies_results := ∅; communication_tests := None;
     success_rate := None; overall_passed := None |}.

(** [results["total_tests"] += 1] and its two siblings. *)
Definition incr_total (res : Results) : Results :=
  {| total_tests := total_tests res + 1;
     passed_tests := passed_tests res;
     failed_tests := failed_tests res;
     technologies_results := technologies_results res;
     communication_tests := communication_tests res;
     success_rate := success_rate res;
     overall_passed := overall_passed res |}.

Definition incr_passed (res : Results) : Results :=
  {| total_tests := total_tests res;
     passed_tests := passed_tests res + 1;
     failed_tests := failed_tests res;
     technologies_results := technologies_results res;
     communication_tests := communication_tests res;
     success_rate := success_rate res;
     overall_passed := overall_passed res |}.

Definition incr_failed (res : Results) : Results :=
  {| total_tests := total_tests res;
     passed_tests := passed_tests res;
     failed_tests := failed_tests res + 1;
     technologies_results := technologies_results res;
     communication_tests := communication_tests res;
     success_rate := success_rate res;
     overall_passed := overall_passed res |}.

Definition set_technology (k : string) (t : TechResults) (res : Results) : Results :=
  {| total_tests := total_tests res;
     passed_tests := passed_tests res;
     failed_tests := failed_tests res;
     technologies_results := <[k := t]> (technologies_results res);
     communication_tests := communication_tests res;
     success_rate := success_rate res;
     overall_passed := overall_passed res |}.

Definition set_communication (k : string) (b : bool) (res : Results) : Results :=
  {| total_tests := total_tests res;
     passed_tests := passed_tests res;
     failed_tests := failed_tests res;
     technologies_results := technologies_results res;
     communication_tests :=
       Some (<[k := b]> (default ∅ (communication_tests res)));
     success_rate := success_rate res;
     overall_passed := overall_passed res |}.

(** The tail of [run_integration_tests]: success rate and overall result. *)
Definition finalize (res : Results) : Results :=
  let rate := if 0 <? total_tests res
              then percentage (passed_tests res) (total_tests res)
              else 0%float in
  {| total_tests := total_tests res;
     passed_tests := passed_tests res;
     failed_tests := failed_tests res;
     technologies_results := technologies_results res;
     communication_tests := communication_tests res;
     success_rate := Some rate;
     overall_passed := Some (PrimFloat.leb 90 rate) |}.

(** [check_service_health] after the request has returned. *)
Definition health_verdict (h : HttpResult) : bool * string :=
  match h with
  | Response status_code text =>
      if status_code =? 200 then (true, text)
      else (false, "HTTP " ++ pretty status_code)
  | RequestException e => (false, e)
  end.

(** [send_request] of [run_stress_test]: the bare [except] turns every
    failure into [False]. *)
Definition send_request (h : HttpResult) : bool :=
  match h with
  | Response status_code _ => status_code =? 200
  | RequestException _ => false
  end.

(** [sum(results)] on a list of booleans. *)
Definition sum (results : list bool) : Z :=
  Z.of_nat (length (filter (fun b => b = true) results)).

(** [run_stress_test] after the pool has joined. [results] is in completion
    order, which only [sum] and [len] read. On an empty list the division
    raises [ZeroDivisionError], which the [except] of [run_stress_test]
    turns into the dict [{"error": ...}]. *)
Definition stress_summary (results : list bool) : Stress.t + string :=
  if Z.of_nat (length results) =? 0 then inr "division by zero"
  else
    let success_rate := percentage (sum results) (Z.of_nat (length results)) in
    inl {| Stress.total_requests := Z.of_nat (length results);
           Stress.successful_requests := sum results;
           Stress.success_rate := success_rate;
           Stress.passed := PrimFloat.leb 95 success_rate |}.

(** [run_performance_test] after the request has returned; the measured
    duration is kept opaque. *)
Definition performance_verdict (h : HttpResult) (j : JsonBody)
  : gmap string string :=
  match h with
  | Response status_code _ =>
      if status_code =? 200 then
        match j with
        | JsonDict performance_data =>
            <["measured_response_time" := "end_time - start_time"]> performance_data
        | JsonError e => {["error" := e]}
        end
      else {["error" := "HTTP " ++ pretty status_code]}
  | RequestException e => {["error" := e]}
  end.

(** [generate_report] indexes [results['success_rate']] and
    [results['overall_passed']]; a missing key raises. The rendered text is
    not modelled. *)
Definition generate_report (results : Results) : Outcome unit :=
  match success_rate results, overall_passed results with
  | None, _ => Raised (KeyError "success_rate")
  | Some _, None => Raised (KeyError "overall_passed")
  | Some _, Some _ => Ok tt
  end.

(** [technologies[tech_key]] on an insertion-ordered dict; [None] is the
    [KeyError]. *)
Fixpoint assoc (l : list (string * TechnologyConfig)) (k : string)
  : option TechnologyConfig :=
  match l with
  | [] => None
  | (k', c) :: l' => if String.eqb k' k then Some c else assoc l' k
  end.

Section Runner.

Variable technologies : list (string * TechnologyConfig).
Variable W : World.

Definition lookup_tech (k : string) : M TechnologyConfig :=
  match assoc technologies k with
  | Some c => ret c
  | None => raise (KeyError k)
  end.

(** ** [stop_service] and [stop_all_services] *)

Definition stop_service (tech_key : string) : M bool :=
  do ps <- get_processes;
  match ps !! tech_key with
  | None => ret true
  | Some process =>
      do tech_config <- lookup_tech tech_key;
      emit (EvTerminate tech_key);;
      match on_stop process with
      | StopRaises e =>
          logger_error ("Failed to stop " ++ name tech_config ++ ": " ++ e);;
          ret false
      | ExitsOnTerminate =>
          set_processes (delete tech_key ps);;
          ret true
      | NeedsKill =>
          emit (EvKill tech_key);;
          set_processes (delete tech_key ps);;
          ret true
      end
  end.

Fixpoint stop_loop (order : list string) : M unit :=
  match order with
  | [] => ret tt
  | tech_key :: rest =>
      do ps <- get_processes;
      match ps !! tech_key with
      | Some _ => stop_service tech_key;; stop_loop rest
      | None => stop_loop rest
      end
  end.

Definition stop_all_services : M unit := stop_loop stop_order.

(** ** Signal delivery *)

Definition _signal_handler : M unit :=
  emit EvSignal;;
  set_running false;;
  stop_all_services.

(** A point of the run at which a pending SIGINT/SIGTERM is delivered: the
    handler runs in the main thread between two statements. *)
Definition checkpoint : M unit :=
  fun r =>
    let r' := {| processes := processes r; running := running r;
                 clock := S (clock r); trace := trace r |} in
    if signal_at W (clock r) then _signal_handler r' else (Ok tt, r').

(** ** [start_service] *)

(** [time.sleep(secs)] on an int: the exception it raises, if any. *)
Definition sleep_raises (secs : Z) : option string :=
  if secs <? 0 then Some "sleep length must be non-negative" else None.

Definition start_service (tech_key : string) : M bool :=
  do tech_config <- lookup_tech tech_key;
  emit (EvStartService tech_key);;
  if negb (executable_exists W (executable tech_config)) then
    logger_error ("Executable not found for " ++ name tech_config);;
    ret false
  else
    match popen W (executable tech_config) with
    | inr e =>
        logger_error ("Failed to start " ++ name tech_config ++ ": " ++ e);;
        ret false
    | inl process =>
        do ps <- get_processes;
        set_processes (<[tech_key := process]> ps);;
        emit (EvSpawn tech_key (pid process));;
        match sleep_raises (startup_time tech_config) with
        | Some e =>
            logger_error ("Failed to start " ++ name tech_config ++ ": " ++ e);;
            ret false
        | None =>
            if survives_startup process then ret true
            else
              logger_error (name tech_config ++ " failed to start: "
                            ++ stderr_text process);;
              ret false
        end
    end.

(** ** Probes *)

Definition check_service_health (tech_key : string) : M (bool * string) :=
  do tech_config <- lookup_tech tech_key;
  emit (EvHealth tech_key);;
  ret (health_verdict
         (health_response W (port tech_config) (health_endpoint tech_config))).

Definition test_service_communication (tech1 tech2 : string) : M bool :=
  let failed e :=
    logger_error ("Communication test failed between " ++ tech1
                  ++ " and " ++ tech2 ++ ": " ++ e);;
    ret false in
  match assoc technologies tech1, assoc technologies tech2 with
  | Some tech1_config, Some tech2_config =>
      emit (EvCommunication tech1 tech2);;
      match communication_response W (port tech1_config) (port tech2_config) with
      | Response status_code _ => ret (status_code =? 200)
      | RequestException e => failed e
      end
  | None, _ => failed (str_exn (KeyError tech1))
  | Some _, None => failed (str_exn (KeyError tech2))
  end.

Definition run_performance_test (tech_key : string) : M (gmap string string) :=
  do tech_config <- lookup_tech tech_key;
  emit (EvPerformance tech_key);;
  ret (performance_verdict (performance_response W (port tech_config))
                           (performance_json W (port tech_config))).

(** The batch of 50 requests, each answered as the world says; the thread
    pool is taken to start and to join. *)
Definition run_stress_test (tech_key : string) : M (Stress.t + string) :=
  do tech_config <- lookup_tech tech_key;
  emit (EvStress tech_key);;
  let results :=
    map (fun i => send_request (stress_response W (port tech_config) i))
        (seq 0 50) in
  ret (stress_summary results).

(** [stress_result.get("passed", False)] *)
Definition stress_passed (stress_result : Stress.t + string) : bool :=
  match stress_result with
  | inl d => Stress.passed d
  | inr _ => false
  end.

(** ** [run_integration_tests] *)

(** The start loop; [None] is the early [return results]. *)
Fixpoint start_loop (order started_services : list string)
  : M (option (list string)) :=
  match order with
  | [] => ret (Some started_services)
  | tech_key :: rest =>
      do ok <- start_service tech_key;
      checkpoint;;
      if ok then start_loop rest (started_services ++ [tech_key])
      else
        do tech_config <- lookup_tech tech_key;
        logger_error ("Failed to start " ++ name tech_config);;
        if critical tech_config then
          logger_error "Critical service failed, stopping tests";;
          stop_all_services;;
          ret None
        else start_loop rest started_services
  end.

(** One iteration of the per-technology loop, after the [running] test. *)
Definition test_body (tech_key : string) (results : Results) : M Results :=
  do tech_config <- lookup_tech tech_key;
  let results := incr_total results in
  do hm <- check_service_health tech_key;
  checkpoint;;
  let healthy := fst hm in
  let results := if healthy then incr_passed results else incr_failed results in
  do pr <-
    (if healthy then
       let results := incr_total results in
       do perf_result <- run_performance_test tech_key;
       checkpoint;;
       ret (Some perf_result,
            if bool_decide ("error" ∉ dom perf_result)
            then incr_passed results else incr_failed results)
     else ret (None, results));
  let results := snd pr in
  do sr <-
    (if healthy then
       let results := incr_total results in
       do stress_result <- run_stress_test tech_key;
       checkpoint;;
       ret (Some stress_result,
            if stress_passed stress_result
            then incr_passed results else incr_failed results)
     else ret (None, results));
  let results := snd sr in
  let tech_results :=
    {| tr_name := name tech_config; health_check := hm;
       performance := fst pr; stress := fst sr |} in
  let results := set_technology tech_key tech_results results in
  checkpoint;;
  ret results.

Fixpoint test_loop (started_services : list string) (results : Results)
  : M Results :=
  match started_services with
  | [] => ret results
  | tech_key :: rest =>
      do running <- get_running;
      if negb running then ret results
      else
        do results <- test_body tech_key results;
        test_loop rest results
  end.

(** One iteration of the communication loop, after the [running] test. *)
Definition comm_body (started_services : list string) (tech1 tech2 : string)
    (results : Results) : M Results :=
  if bool_decide (tech1 ∈ started_services) && bool_decide (tech2 ∈ started_services)
  then
    let results := incr_total results in
    do comm_result <- test_service_communication tech1 tech2;
    checkpoint;;
    let results := set_communication (tech1 ++ "_to_" ++ tech2) comm_result results in
    ret (if comm_result then incr_passed results else incr_failed results)
  else ret results.

Fixpoint comm_loop (pairs : list (string * string))
    (started_services : list string) (results : Results) : M Results :=
  match pairs with
  | [] => ret results
  | (tech1, tech2) :: rest =>
      do running <- get_running;
      if negb running then ret results
      else
        do results <- comm_body started_services tech1 tech2 results;
        comm_loop rest started_services results
  end.

Definition run_integration_tests : M Results :=
  do started <- start_loop start_order [];
  match started with
  | None => ret initial_results
  | Some started_services =>
      checkpoint;;
      do results <- test_loop started_services initial_results;
      do results <- comm_loop communication_pairs started_services results;
      stop_all_services;;
      ret (finalize results)
  end.

(** ** [main]: the exit status of the process *)

(** A step of [main] that touches the file system or the terminal. *)
Definition io (raises : option string) : M unit :=
  match raises with
  | Some e => raise (Exception e)
  | None => ret tt
  end.

Definition save_results : M unit := io (save_results_raises W).

Definition save_report : M unit := io (save_report_raises W).

Definition print_summary : M unit := io (print_raises W).

(** The [try] block of [main], up to the argument of [sys.exit]. *)
Definition main_body : M Z :=
  do results <- run_integration_tests;
  save_results;;
  (fun r => (generate_report results, r));;
  save_report;;
  print_summary;;
  ret (if default false (overall_passed results) then 0 else 1).

(** [SystemExit] passes through [except Exception]; every other exception
    of the block is logged, the services are stopped and the status is 1. *)
Definition main : Z * Runner :=
  match main_body init_runner with
  | (Ok status, r) => (status, r)
  | (Raised e, r) =>
      (1, snd ((logger_error ("Unexpected error: " ++ str_exn e);;
                stop_all_services) r))
  end.

End Runner.

(** ** The registry's dependencies

    The script has no function that computes a start order: the
    [dependencies] of the registry are compared with the hard-coded
    [start_order] and [stop_order] below. *)

Definition set_dependencies (deps : list string) (c : TechnologyConfig)
  : TechnologyConfig :=
  {| name := name c; executable := executable c; port := port c;
     health_endpoint := health_endpoint c; startup_time := startup_time c;
     dependencies := deps; critical := critical c |}.

(** The registry [reg] with the dependencies of each service [k] replaced
    by [f k] of what they were. *)
Definition with_dependencies (f : string -> list string -> list string)
    (reg : list (string * TechnologyConfig))
  : list (string * TechnologyConfig) :=
  map (fun kc : string * TechnologyConfig =>
         (fst kc, set_dependencies (f (fst kc) (dependencies (snd kc))) (snd kc)))
      reg.

(** Two computations that do the same from every state. *)
Definition same {A} (m m' : M A) : Prop := forall r, m r = m' r.

(** Every service of [order] comes after all of its dependencies. *)
Fixpoint dependencies_first (reg : list (string * TechnologyConfig))
    (seen order : list string) : bool :=
  match order with
  | [] => true
  | k :: rest =>
      match assoc reg k with
      | Some c =>
          bool_decide (Forall (fun d => d ∈ seen) (dependencies c))
          && dependencies_first reg (seen ++ [k]) rest
      | None => false
      end
  end.

(** Every service of [order] comes before all of its dependencies. *)
Definition dependents_first (reg : list (string * TechnologyConfig))
    (order : list string) : bool :=
  dependencies_first reg [] (rev order).

(** ** Projections of a trace *)

Definition start_attempts (tr : list Event) : list string :=
  omap (fun e => match e with EvStartService k => Some k | _ => None end) tr.

Definition spawned (tr : list Event) : list string :=
  omap (fun e => match e with EvSpawn k _ => Some k | _ => None end) tr.

Definition terminations (tr : list Event) : list string :=
  omap (fun e => match e with EvTerminate k => Some k | _ => None end) tr.

Definition error_lines (tr : list Event) : list string :=
  omap (fun e => match e with EvLogError msg => Some msg | _ => None end) tr.

(** ** Sample worlds *)

Definition sample_process : Popen :=
  {| pid := 4242; survives_startup := true; stderr_text := "";
     on_stop := ExitsOnTerminate |}.

(** Every executable is built and stays up, every request answers 200,
    no signal arrives. *)
Definition good_world : World :=
  {| executable_exists := fun _ => true;
     popen := fun _ => inl sample_process;
     health_response := fun _ _ => Response 200 "ok";
     performance_response := fun _ => Response 200 "{}";
     performance_json := fun _ => JsonDict ∅;
     stress_response := fun _ _ => Response 200 "";
     communication_response := fun _ _ => Response 200 "";
     signal_at := fun _ => false;
     save_results_raises := None;
     save_report_raises := None;
     print_raises := None |}.

(** [good_world] without the executable [exe] in the build directory. *)
Definition without_executable (exe : string) (w : World) : World :=
  {| executable_exists := fun e => if String.eqb e exe then false
                                   else executable_exists w e;
     popen := popen w;
     health_response := health_response w;
     performance_response := performance_response w;
     performance_json := performance_json w;
     stress_response := stress_response w;
     communication_response := communication_response w;
     signal_at := signal_at w;
     save_results_raises := save_results_raises w;
     save_report_raises := save_report_raises w;
     print_raises := print_raises w |}.

(** [w] with the health endpoint on port [p] answering [h]. *)
Definition with_health (p : Z) (h : HttpResult) (w : World) : World :=
  {| executable_exists := executable_exists w;
     popen := popen w;
     health_response := fun p' path => if p' =? p then h
                                       else health_response w p' path;
     performance_response := performance_response w;
     performance_json := performance_json w;
     stress_response := stress_response w;
     communication_response := communication_response w;
     signal_at := signal_at w;
     save_results_raises := save_results_raises w;
     save_report_raises := save_report_raises w;
     print_raises := print_raises w |}.

(** [w] with the stress endpoint answering 200 to the first [n] requests
    of a batch and timing out on the others. *)
Definition with_stress_successes (n : nat) (w : World) : World :=
  {| executable_exists := executable_exists w;
     popen := popen w;
     health_response := health_response w;
     performance_response := performance_response w;
     performance_json := performance_json w;
     stress_response := fun _ i => if (i <? n)%nat then Response 200 ""
                                   else RequestException "Read timed out.";
     communication_response := communication_response w;
     signal_at := signal_at w;
     save_results_raises := save_results_raises w;
     save_report_raises := save_report_raises w;
     print_raises := print_raises w |}.

(** [w] with one signal, delivered at the checkpoint number [n]. *)
Definition with_signal (n : nat) (w : World) : World :=
  {| executable_exists := executable_exists w;
     popen := popen w;
     health_response := health_response w;
     performance_response := performance_response w;
     performance_json := performance_json w;
     stress_response := stress_response w;
     communication_response := communication_response w;
     signal_at := fun i => (i =? n)%nat;
     save_results_raises := save_results_raises w;
     save_report_raises := save_report_raises w;
     print_raises := print_raises w |}.

(** [w] in which every child process raises when it is stopped. *)
Definition with_failing_stops (w : World) : World :=
  {| executable_exists := executable_exists w;
     popen := fun _ => inl {| pid := 4242; survives_startup := true;
                              stderr_text := "";
                              on_stop := StopRaises "Permission denied" |};
     health_response := health_response w;
     performance_response := performance_response w;
     performance_json := performance_json w;
     stress_response := stress_response w;
     communication_response := communication_response w;
     signal_at := signal_at w;
     save_results_raises := save_results_raises w;
     save_report_raises := save_report_raises w;
     print_raises := print_raises w |}.

(** The shipped registry with a dependency cycle: the first service now
    depends on the last one. *)
Definition cyclic_technologies : list (string * TechnologyConfig) :=
  with_dependencies
    (fun k deps => if String.eqb k "air-to-air-mesh" then ["star-nav-core"]
                   else deps)
    default_technologies.

(** The services on the cycle of [cyclic_technologies]. *)
Definition on_cycle : list string :=
  [ "air-to-air-mesh"; "neuro-fcc"; "self-adaptive-rotor-blades"; "cold-jet";
    "local-gravity-field-navigation"; "predictive-airflow-engine";
    "air-swarm-os"; "star-nav-core" ].

(** ** Exact readings of binary64 values *)

(** The rational number a finite binary64 value stands for. *)
Definition float_to_Q (f : float) : option Q :=
  match Prim2SF f with
  | S754_zero _ => Some 0%Q
  | S754_finite s m e =>
      Some (inject_Z (if s then Z.neg m else Z.pos m) * Qpower 2 e)%Q
  | _ => None
  end.

(** [f] is finite and differs from the rational [100 * num / den] by at
    most 10^-12. *)
Definition near_percentage (f : float) (num den : Z) : bool :=
  match float_to_Q f with
  | Some q =>
      Qle_bool (Qabs (q * inject_Z den - inject_Z (100 * num)))
               (inject_Z den * (1 # 10 ^ 12))
  | None => false
  end.

(** The longest start-up time, in seconds, that [time.sleep] takes on
    every platform: beyond the range of the platform's clock it raises
    [OverflowError], which [start_service] does not model. *)
Definition sleep_limit : Z := 4294967.

(** The value of a run that raised nothing. *)
Definition fst_ok {A} (out : Outcome A * Runner) : option A :=
  match fst out with
  | Ok a => Some a
  | Raised _ => None
  end.

(** [results["communication_tests"][k]["passed"]], when the key exists. *)
Definition communication_entry (k : string) (res : Results) : option bool :=
  match communication_tests res with
  | Some c => c !! k
  | None => None
  end.

(** The number of entries of [results["communication_tests"]]. *)
Definition communication_count (res : Results) : nat :=
  match communication_tests res with
  | Some c => size c
  | None => 0
  end.

(** [results["technologies"][k]["tests"]["health_check"]] *)
Definition health_entry (k : string) (res : Results) : option (bool * string) :=
  match technologies_results res !! k with
  | Some t => Some (health_check t)
  | None => None
  end.

Definition communications (tr : list Event) : list (string * string) :=
  omap (fun e => match e with
                 | EvCommunication k1 k2 => Some (k1, k2)
                 | _ => None
                 end) tr.

(** ** A program logic for the runner monad

    [triple E P Q m]: from every state, [m] appends to the trace only
    events satisfying [P]; when it returns [a], [Q a] holds; when it
    raises, [E] holds (so [triple False] is total correctness). *)

Definition triple {A} (E : Prop) (P : Event -> Prop) (Q : A -> Prop)
    (m : M A) : Prop :=
  forall r, exists evs,
    trace (snd (m r)) = (trace r ++ evs)%list /\ Forall P evs /\
    match fst (m r) with
    | Ok a => Q a
    | Raised _ => E
    end.

(** The events of a teardown, of a signal delivery, and of the start of
    the services of [l]. *)
Definition stop_event (e : Event) : Prop :=
  match e with
  | EvTerminate _ | EvKill _ | EvLogError _ => True
  | _ => False
  end.

Definition handler_event (e : Event) : Prop :=
  match e with
  | EvTerminate _ | EvKill _ | EvLogError _ | EvSignal => True
  | _ => False
  end.

Definition start_phase_event (l : list string) (e : Event) : Prop :=
  match e with
  | EvStartService k | EvSpawn k _ => k ∈ l
  | EvTerminate _ | EvKill _ | EvLogError _ | EvSignal => True
  | _ => False
  end.

(** A lookup of [k] in the registry raises only when [E] allows it. *)
Definition declared (technologies : list (string * TechnologyConfig))
    (E : Prop) (k : string) : Prop :=
  assoc technologies k = None -> E.

(** ** What the start loop does, read off the world *)

(** The answer of [start_service] for a declared service: the executable
    exists, [Popen] raises nothing, the start-up sleep raises nothing and
    the process outlives its start-up time. *)
Definition start_succeeds (W : World) (c : TechnologyConfig) : bool :=
  executable_exists W (executable c) &&
  match popen W (executable c) with
  | inl process => (0 <=? startup_time c) && survives_startup process
  | inr _ => false
  end.

Definition start_ok (technologies : list (string * TechnologyConfig))
    (W : World) (k : string) : bool :=
  match assoc technologies k with
  | Some c => start_succeeds W c
  | None => false
  end.

(** A critical service whose start fails. *)
Definition critical_failure (technologies : list (string * TechnologyConfig))
    (W : World) (k : string) : bool :=
  match assoc technologies k with
  | Some c => critical c && negb (start_succeeds W c)
  | None => false
  end.

(** The services the start loop reaches: all of [order] up to and
    including the first critical failure. *)
Fixpoint attempted (technologies : list (string * TechnologyConfig))
    (W : World) (order : list string) : list string :=
  match order with
  | [] => []
  | k :: rest =>
      k :: (if critical_failure technologies W k then []
            else attempted technologies W rest)
  end.

(** The run takes the early [return] of the start loop. *)
Definition aborts (technologies : list (string * TechnologyConfig))
    (W : World) : bool :=
  existsb (critical_failure technologies W) start_order.

(** Events of the probing phase: no start and no communication probe. *)
Definition test_phase_event (e : Event) : Prop :=
  match e with
  | EvStartService _ | EvSpawn _ _ | EvCommunication _ _ => False
  | _ => True
  end.

(** Events of the communication phase: no start, and communication probes
    between members of [started_services] only. *)
Definition comm_phase_event (started_services : list string) (e : Event) : Prop :=
  match e with
  | EvStartService _ | EvSpawn _ _ => False
  | EvCommunication k1 k2 => k1 ∈ started_services /\ k2 ∈ started_services
  | _ => True
  end.

(** Events of a whole run whose start loop reaches the services [starts]
    and collects [started_services]. *)
Definition run_event (starts started_services : list string) (e : Event) : Prop :=
  match e with
  | EvStartService k | EvSpawn k _ => k ∈ starts
  | EvCommunication k1 k2 => k1 ∈ started_services /\ k2 ∈ started_services
  | _ => True
  end.

(** [started_services] at the end of a start loop that was not cut short. *)
Definition started_in (technologies : list (string * TechnologyConfig))
    (W : World) (order : list string) : list string :=
  filter (fun k => start_ok technologies W k = true) order.

(** The counters of [results] add up and stay below [n]. *)
Definition counters (n : Z) (res : Results) : Prop :=
  total_tests res = passed_tests res + failed_tests res /\
  0 <= passed_tests res /\ 0 <= failed_tests res /\ total_tests res <= n.

(** ** What a teardown does, read off the process table *)

(** [stop_service] on this process ends in the [except] branch. *)
Definition raises_on_stop (p : Popen) : bool :=
  match on_stop p with
  | StopRaises _ => true
  | _ => false
  end.

(** The entry of a process after [stop_service] was called on it, if any:
    only a process whose stop raised keeps its entry. *)
Definition after_stop (entry : option Popen) : option Popen :=
  match entry with
  | Some p => if raises_on_stop p then Some p else None
  | None => None
  end.

(** The error line [stop_service] logs for [k], if any. *)
Definition stop_error (technologies : list (string * TechnologyConfig))
    (ps : gmap string Popen) (k : string) : option string :=
  match ps !! k, assoc technologies k with
  | Some p, Some c =>
      match on_stop p with
      | StopRaises e => Some ("Failed to stop " ++ name c ++ ": " ++ e)
      | _ => None
      end
  | _, _ => None
  end.

(** ** What the probes and the start of one service do, read off the world *)

(** The process [start_service] puts into the process table, if any: the
    executable exists and [Popen] raised nothing. The process may still be
    gone after its start-up time. *)
Definition launched (W : World) (c : TechnologyConfig) : option Popen :=
  if executable_exists W (executable c) then
    match popen W (executable c) with
    | inl process => Some process
    | inr _ => None
    end
  else None.

(** The first component of what [check_service_health] returns for a
    declared service. *)
Definition healthy (technologies : list (string * TechnologyConfig))
    (W : World) (k : string) : bool :=
  match assoc technologies k with
  | Some c => fst (health_verdict (health_response W (port c) (health_endpoint c)))
  | None => false
  end.

(** Events of the probing of the services of [l]: a health check for a
    member of [l], a performance or stress probe for a healthy member of
    [l], no start and no communication probe. *)
Definition probe_event (technologies : list (string * TechnologyConfig))
    (W : World) (l : list string) (e : Event) : Prop :=
  match e with
  | EvHealth k => k ∈ l
  | EvPerformance k | EvStress k => k ∈ l /\ healthy technologies W k = true
  | EvStartService _ | EvSpawn _ _ | EvCommunication _ _ => False
  | _ => True
  end.

(** The probes of a trace, whatever their kind. *)
Definition is_probe (e : Event) : bool :=
  match e with
  | EvHealth _ | EvPerformance _ | EvStress _ | EvCommunication _ _ => true
  | _ => false
  end.

(** What one iteration of the per-technology loop on [k] adds to the
    record: three checks for a healthy service, one failed check for an
    unhealthy one, and the entry of [k] in [results["technologies"]]. *)
Definition accounted (technologies : list (string * TechnologyConfig))
    (W : World) (k : string) (res res' : Results) : Prop :=
  let h := healthy technologies W k in
  total_tests res' = total_tests res + (if h then 3 else 1) /\
  passed_tests res' + failed_tests res'
    = passed_tests res + failed_tests res + (if h then 3 else 1) /\
  passed_tests res <= passed_tests res' /\
  failed_tests res <= failed_tests res' /\
  (h = false -> passed_tests res' = passed_tests res) /\
  (exists t,
     technologies_results res' !! k = Some t /\
     fst (health_check t) = h /\
     (is_Some (performance t) <-> h = true) /\
     (is_Some (stress t) <-> h = true)) /\
  (forall k', k' <> k ->
     technologies_results res' !! k' = technologies_results res !! k') /\
  communication_tests res' = communication_tests res.

(** Events of a whole run, as far as probes go: a health check for a
    service whose start succeeded, a performance or stress probe for such
    a service whose health check passes. *)
Definition run_probe_event (technologies : list (string * TechnologyConfig))
    (W : World) (e : Event) : Prop :=
  match e with
  | EvHealth k => start_ok technologies W k = true
  | EvPerformance k | EvStress k =>
      start_ok technologies W k = true /\ healthy technologies W k = true
  | _ => True
  end.

(** No signal is delivered at the [len] checkpoints from number [n] on. *)
Definition no_signal (W : World) (n len : nat) : bool :=
  forallb (fun i => negb (signal_at W i)) (seq n len).

(** The probes of a trace. *)
Definition probes (tr : list Event) : list Event :=
  omap (fun e => if is_probe e then Some e else None) tr.

(** The clock reads [n] and the [running] flag is [b]. *)
Definition flags (n : nat) (b : bool) (r : Runner) : Prop :=
  clock r = n /\ running r = b.

(** No signal is ever delivered. *)
Definition calm (W : World) : Prop := forall i, signal_at W i = false.

(** The checks the per-technology loop makes on the services of [l]: three
    for a healthy service, one for an unhealthy one. *)
Definition probe_checks (technologies : list (string * TechnologyConfig))
    (W : World) (l : list string) : Z :=
  foldr (fun k acc => (if healthy technologies W k then 3 else 1) + acc) 0 l.

(** The services of [l] whose health check fails. *)
Definition unhealthy_count (technologies : list (string * TechnologyConfig))
    (W : World) (l : list string) : Z :=
  foldr (fun k acc => (if healthy technologies W k then 0 else 1) + acc) 0 l.

(** The pairs of [pairs] with both endpoints in [started_services]. *)
Definition pair_checks (pairs : list (string * string))
    (started_services : list string) : Z :=
  foldr (fun p acc =>
           (if bool_decide (fst p ∈ started_services)
               && bool_decide (snd p ∈ started_services)
            then 1 else 0) + acc) 0 pairs.

(** ** State assertions

    [hoare I m Q X]: from a state satisfying [I], [m] ends in a state
    satisfying [Q a] when it returns [a] and [X] when it raises.
    [keeps f m]: [m] leaves the component [f] of the state as it was,
    whether it returns or raises. *)

Definition hoare {A} (I : Runner -> Prop) (m : M A)
    (Q : A -> Runner -> Prop) (X : Runner -> Prop) : Prop :=
  forall r, I r ->
    match fst (m r) with
    | Ok a => Q a (snd (m r))
    | Raised _ => X (snd (m r))
    end.

Definition keeps {A F} (f : Runner -> F) (m : M A) : Prop :=
  forall r, f (snd (m r)) = f r.

(** No child process of this world raises when it is stopped. *)
Definition quiet_world (W : World) : Prop :=
  forall exe process, popen W exe = inl process -> raises_on_stop process = false.

(** Every entry of the process table is one that [stop_all_services]
    reaches and stops without an exception. *)
Definition reapable (r : Runner) : Prop :=
  forall k process,
    processes r !! k = Some process ->
    k ∈ stop_order /\ raises_on_stop process = false.

(** The part of the runner the script itself holds. *)
Definition core (r : Runner) : gmap string Popen * bool * nat :=
  (processes r, running r, clock r).

(** * Properties *)

Local Open Scope list_scope.

(** ** Stress probe *)

Lemma sum_bounds (results : list bool) :
  0 <= sum results <= Z.of_nat (length results).
Proof.
  unfold sum. pose proof (length_filter (fun b : bool => b = true) results).
  lia.
Qed.

Lemma sum_map {A} (f : A -> bool) (l : list A) :
  sum (map f l) = Z.of_nat (length (filter (fun i => f i = true) l)).
Proof.
  unfold sum. f_equal. induction l as [|a l IH]; [reflexivity|].
  cbn [map]. rewrite !filter_cons.
  destruct (decide (f a = true)); cbn [length]; congruence.
Qed.

(** [sum] counts: over a list without repetition, the sum of [map f] is
    the number of elements on which [f] holds. *)
Lemma sum_map_count {A} (f : A -> bool) (l ok : list A) :
  NoDup l -> NoDup ok ->
  (forall i, i ∈ ok <-> i ∈ l /\ f i = true) ->
  sum (map f l) = Z.of_nat (length ok).
Proof.
  intros Hl Hok Hiff. rewrite sum_map. f_equal.
  apply Permutation_length, NoDup_Permutation.
  - by apply NoDup_filter.
  - exact Hok.
  - intros i. rewrite list_elem_of_filter, Hiff. tauto.
Qed.

Lemma send_request_200 (h : HttpResult) :
  send_request h = true <-> exists text, h = Response 200 text.
Proof.
  destruct h as [status text|e]; cbn.
  - destruct (Z.eqb_spec status 200) as [->|Hne].
    + split; eauto.
    + split; [discriminate|]. intros (text' & [= ? ?]). contradiction.
  - split; [discriminate|]. intros (? & [=]).
Qed.

Lemma stress_table (s : Z) :
  0 <= s <= 50 ->
  near_percentage (percentage s 50) s 50 = true /\
  PrimFloat.leb 95 (percentage s 50) = (48 <=? s).
Proof.
  intros Hs.
  assert (Htab : forallb (fun n =>
                   near_percentage (percentage (Z.of_nat n) 50) (Z.of_nat n) 50
                   && Bool.eqb (PrimFloat.leb 95 (percentage (Z.of_nat n) 50))
                               (48 <=? Z.of_nat n)) (seq 0 51) = true)
    by (vm_compute; reflexivity).
  rewrite forallb_forall in Htab.
  assert (Hin : In (Z.to_nat s) (seq 0 51)) by (apply in_seq; lia).
  specialize (Htab _ Hin). rewrite Z2Nat.id in Htab by lia.
  apply andb_true_iff in Htab as [Hnear Hleb].
  split; [exact Hnear|]. apply Bool.eqb_prop, Hleb.
Qed.

(** C4. A stress batch is 50 requests and always runs to its end. A
    request is a success exactly when it is answered with status 200: every
    other status, error or timeout is a failure. With [ok] the requests
    that are answered 200, the record holds 50 requests and [length ok]
    successes; the reported rate is successes / 50 * 100 computed in
    binary64, within 10^-12 of the exact percentage; the probe passes iff
    the rate is at least 95, that is iff at least 48 requests succeeded;
    48 successes give 96.0 and pass, 40 give 80.0 and fail. *)
Theorem C4_stress_probe technologies (W : World) tech_key tech_config r
    (ok : list nat) :
  assoc technologies tech_key = Some tech_config ->
  NoDup ok ->
  (forall i, i ∈ ok <->
             (i < 50)%nat /\
             exists text,
               stress_response W (port tech_config) i = Response 200 text) ->
  let successes := Z.of_nat (length ok) in
  exists d,
    fst (run_stress_test technologies W tech_key r) = Ok (inl d) /\
    Stress.total_requests d = 50 /\
    Stress.successful_requests d = successes /\
    Stress.success_rate d
      = (of_uint63 (Uint63.of_Z successes) / 50 * 100)%float /\
    near_percentage (Stress.success_rate d) successes 50 = true /\
    Stress.passed d = PrimFloat.leb 95 (Stress.success_rate d) /\
    (Stress.passed d = true <-> 48 <= successes) /\
    (successes = 48 ->
       Stress.success_rate d = 96%float /\ Stress.passed d = true) /\
    (successes = 40 ->
       Stress.success_rate d = 80%float /\ Stress.passed d = false).
Proof.
  intros Hcfg Hnodup Hok successes.
  unfold run_stress_test, lookup_tech, bind, ret, emit.
  rewrite Hcfg. cbn [fst].
  set (results := map _ (seq 0 50)).
  assert (Hlen : Z.of_nat (length results) = 50)
    by (unfold results; rewrite length_map, length_seq; reflexivity).
  assert (Hsum : sum results = successes).
  { unfold results. apply sum_map_count; [apply NoDup_seq|exact Hnodup|].
    intros i. rewrite Hok, elem_of_seq, send_request_200.
    split; intros [Hi Hr]; (split; [lia|exact Hr]). }
  pose proof (sum_bounds results) as Hb. rewrite Hlen, Hsum in Hb.
  unfold stress_summary. rewrite Hlen, Hsum. cbn [Z.eqb].
  destruct (stress_table successes Hb) as [Hnear Hleb].
  eexists. split; [reflexivity|].
  cbn [Stress.total_requests Stress.successful_requests Stress.success_rate
       Stress.passed].
  split; [reflexivity|]. split; [reflexivity|]. split; [reflexivity|].
  split; [exact Hnear|]. split; [reflexivity|]. split.
  - rewrite Hleb. apply Z.leb_le.
  - split; intros ->; split; reflexivity.
Qed.

Lemma C4_stress_probe_witness :
  exists d,
    fst (run_stress_test default_technologies
           (with_stress_successes 48 good_world) "neuro-fcc" init_runner)
      = Ok (inl d) /\
    Stress.successful_requests d = 48 /\
    Stress.success_rate d = 96%float /\ Stress.passed d = true.
Proof.
  assert (Hok : forall i, i ∈ seq 0 48 <->
            (i < 50)%nat /\
            exists text,
              stress_response (with_stress_successes 48 good_world) 8082 i
              = Response 200 text).
  { intros i. rewrite elem_of_seq. cbn [stress_response with_stress_successes].
    destruct (Nat.ltb_spec i 48) as [Hi|Hi].
    - split; [intros _; split; [lia|eauto]|intros _; lia].
    - split; [lia|]. intros (_ & text & [=]). }
  destruct (C4_stress_probe default_technologies
              (with_stress_successes 48 good_world) "neuro-fcc" _ init_runner
              (seq 0 48) eq_refl (NoDup_seq 0 48) Hok)
    as (d & Hrun & _ & Hs & _ & _ & _ & _ & H48 & _).
  exists d. split; [exact Hrun|]. split; [exact Hs|]. apply H48. reflexivity.
Defined.

(** ** Health check *)

(** C5, as the code has it. The health check is healthy exactly on status
    200, returning the response text; every other status, 2xx included,
    is unhealthy with the message "HTTP <status>", and a transport failure
    is unhealthy with the text of the exception. *)
Theorem C5_health_check technologies (W : World) tech_key tech_config r :
  assoc technologies tech_key = Some tech_config ->
  let answer := health_response W (port tech_config)
                                (health_endpoint tech_config) in
  fst (check_service_health technologies W tech_key r)
    = Ok (health_verdict answer) /\
  (forall text, answer = Response 200 text ->
     health_verdict answer = (true, text)) /\
  (forall status_code text,
     answer = Response status_code text -> status_code <> 200 ->
     health_verdict answer = (false, ("HTTP " ++ pretty status_code)%string)) /\
  (forall e, answer = RequestException e -> health_verdict answer = (false, e)).
Proof.
  intros Hcfg answer. unfold check_service_health, lookup_tech, bind, ret, emit.
  rewrite Hcfg. cbn [fst]. fold answer.
  split; [reflexivity|]. split; [|split].
  - intros text ->. reflexivity.
  - intros status_code text -> Hne. unfold health_verdict.
    destruct (Z.eqb_spec status_code 200); [contradiction|reflexivity].
  - intros e ->. reflexivity.
Qed.

Lemma C5_health_check_witness :
  fst (check_service_health default_technologies
         (with_health 8082 (Response 503 "") good_world) "neuro-fcc" init_runner)
    = Ok (false, "HTTP 503").
Proof.
  destruct (C5_health_check default_technologies
              (with_health 8082 (Response 503 "") good_world)
              "neuro-fcc" _ init_runner eq_refl) as (Hrun & _).
  rewrite Hrun. reflexivity.
Defined.

(** A 204 answer is a 2xx response, and the health check reports the
    service unhealthy. *)
Lemma C5_no_content_is_unhealthy :
  (200 <=? 204) && (204 <? 300) = true /\
  fst (check_service_health default_technologies
         (with_health 8082 (Response 204 "") good_world) "neuro-fcc" init_runner)
    = Ok (false, "HTTP 204").
Proof. split; reflexivity. Qed.

(** ** Concrete runs *)

(** C1, at a failing input. The build lacks the executable of the critical
    service [self-healing-avionics-bios]: the run takes the early [return]
    of the start loop, so the record it returns has neither [success_rate]
    nor [overall_passed]; [generate_report] then raises [KeyError] and
    [main] leaves through its generic exception handler with status 1. *)
Theorem C1_abort_returns_incomplete_verdict :
  let w := without_executable "self_healing_bios_demo" good_world in
  let out := run_integration_tests default_technologies w init_runner in
  fst out = Ok initial_results /\
  success_rate initial_results = None /\
  overall_passed initial_results = None /\
  generate_report initial_results = Raised (KeyError "success_rate") /\
  error_lines (trace (snd out)) =
    [ "Executable not found for Self-Healing Avionics BIOS";
      "Failed to start Self-Healing Avionics BIOS";
      "Critical service failed, stopping tests" ] /\
  error_lines (trace (snd (main default_technologies w))) =
    (error_lines (trace (snd out)) ++ ["Unexpected error: 'success_rate'"])%list /\
  fst (main default_technologies w) = 1.
Proof. vm_compute. repeat split; reflexivity. Qed.

(** The critical service [neuro-fcc] fails its health check (status 500)
    and nothing else goes wrong: every service of the start order has been
    started before the first health check, and the verdict is a pass with
    31 of 32 checks. *)
Lemma C2_unhealthy_critical_service_passes :
  let w := with_health 8082 (Response 500 "") good_world in
  let out := run_integration_tests default_technologies w init_runner in
  option_map critical (assoc default_technologies "neuro-fcc") = Some true /\
  fst (check_service_health default_technologies w "neuro-fcc" init_runner)
    = Ok (false, "HTTP 500") /\
  start_attempts (trace (snd out)) = start_order /\
  spawned (trace (snd out)) = start_order /\
  option_map total_tests (fst_ok out) = Some 32 /\
  option_map passed_tests (fst_ok out) = Some 31 /\
  option_bind _ _ overall_passed (fst_ok out) = Some true.
Proof. vm_compute. repeat split; reflexivity. Qed.

(** With every service up, the processes are spawned along [start_order]
    and terminated along [stop_order], which is not the reverse of
    [start_order]. *)
Lemma C3_stop_order_is_not_reversed_start_order :
  let out := run_integration_tests default_technologies good_world init_runner in
  spawned (trace (snd out)) = start_order /\
  terminations (trace (snd out)) = stop_order /\
  bool_decide (terminations (trace (snd out)) = rev (spawned (trace (snd out))))
    = false.
Proof. vm_compute. repeat split; reflexivity. Qed.


(** A child process whose [terminate()] raises: both calls of
    [stop_all_services] log the same error, and the process entry is still
    there afterwards. *)
Lemma C7_failing_stop_is_repeated :
  let w := with_failing_stops good_world in
  let r1 := snd (start_service default_technologies w "neuro-fcc" init_runner) in
  let r2 := snd (stop_all_services default_technologies r1) in
  let r3 := snd (stop_all_services default_technologies r2) in
  error_lines (trace r2) = ["Failed to stop Neuro-FCC: Permission denied"] /\
  error_lines (trace r3) = ["Failed to stop Neuro-FCC: Permission denied";
                            "Failed to stop Neuro-FCC: Permission denied"] /\
  terminations (trace r3) = ["neuro-fcc"; "neuro-fcc"] /\
  bool_decide (is_Some (processes r3 !! "neuro-fcc")) = true.
Proof. vm_compute. repeat split; reflexivity. Qed.

Lemma cyclic_technologies_no_order order : forall seen,
  (forall k, k ∈ on_cycle -> k ∉ seen) ->
  dependencies_first cyclic_technologies seen order = true ->
  forall k, k ∈ on_cycle -> k ∉ order.
Proof.
  assert (Hmem : forall k, In k on_cycle -> k ∈ on_cycle)
    by (intros k Hk; by apply list_elem_of_In).
  induction order as [|x order IH]; intros seen Hseen Hdf k Hk Hin.
  - inversion Hin.
  - cbn [dependencies_first] in Hdf.
    destruct (assoc cyclic_technologies x) as [c|] eqn:Hc; [|discriminate].
    apply andb_true_iff in Hdf as [Hdeps Hrest].
    apply bool_decide_eq_true in Hdeps.
    assert (Hx : x ∉ on_cycle).
    { intros Hx. apply list_elem_of_In in Hx. cbn [on_cycle In] in Hx.
      repeat (destruct Hx as [<-|Hx]); [..|exact Hx];
        vm_compute in Hc; injection Hc as <-;
        apply Forall_cons in Hdeps as [Hd _];
        (eapply Hseen; [|exact Hd]); apply Hmem; cbn; tauto. }
    apply elem_of_cons in Hin as [->|Hin]; [contradiction|].
    eapply (IH (seen ++ [x])); [|exact Hrest|exact Hk|exact Hin].
    intros k' Hk' [Hin'|Hin']%elem_of_app; [by eapply Hseen|].
    apply list_elem_of_singleton in Hin'. by subst.
Qed.

(** A registry with a dependency cycle. No order of its services puts
    dependencies first, so a topological sort has nothing to return; the
    script spawns all ten processes and returns a passing verdict. *)
Lemma C8_cyclic_registry_is_started :
  let out := run_integration_tests cyclic_technologies good_world init_runner in
  option_map dependencies (assoc cyclic_technologies "air-to-air-mesh")
    = Some ["star-nav-core"] /\
  (forall order,
     dependencies_first cyclic_technologies [] order = true ->
     "air-to-air-mesh" ∉ order) /\
  spawned (trace (snd out)) = start_order /\
  option_bind _ _ overall_passed (fst_ok out) = Some true.
Proof.
  split; [reflexivity|]. split.
  - intros order Horder.
    apply (cyclic_technologies_no_order order []); [|exact Horder|].
    + intros k _ Hin. inversion Hin.
    + apply list_elem_of_here.
  - vm_compute. split; reflexivity.
Qed.

(** C9, at a failing input. One signal arrives when the first
    [start_service] call has returned. The handler clears [running] and
    stops the one live process; the start loop, which never reads
    [running], then starts the nine remaining services. The two later
    loops do read the flag and issue no probe, and the final
    [stop_all_services] stops the nine processes. *)
Theorem C9_starts_continue_after_signal :
  let w := with_signal 0 good_world in
  let out := run_integration_tests default_technologies w init_runner in
  running (snd out) = false /\
  trace (snd out) =
    [ EvStartService "air-to-air-mesh"; EvSpawn "air-to-air-mesh" 4242;
      EvSignal; EvTerminate "air-to-air-mesh";
      EvStartService "self-healing-avionics-bios";
      EvSpawn "self-healing-avionics-bios" 4242;
      EvStartService "neuro-fcc"; EvSpawn "neuro-fcc" 4242;
      EvStartService "self-adaptive-rotor-blades";
      EvSpawn "self-adaptive-rotor-blades" 4242;
      EvStartService "vortex-shield"; EvSpawn "vortex-shield" 4242;
      EvStartService "cold-jet"; EvSpawn "cold-jet" 4242;
      EvStartService "local-gravity-field-navigation";
      EvSpawn "local-gravity-field-navigation" 4242;
      EvStartService "predictive-airflow-engine";
      EvSpawn "predictive-airflow-engine" 4242;
      EvStartService "air-swarm-os"; EvSpawn "air-swarm-os" 4242;
      EvStartService "star-nav-core"; EvSpawn "star-nav-core" 4242;
      EvTerminate "star-nav-core"; EvTerminate "air-swarm-os";
      EvTerminate "predictive-airflow-engine";
      EvTerminate "local-gravity-field-navigation";
      EvTerminate "cold-jet"; EvTerminate "self-adaptive-rotor-blades";
      EvTerminate "vortex-shield"; EvTerminate "neuro-fcc";
      EvTerminate "self-healing-avionics-bios" ] /\
  option_bind _ _ overall_passed (fst_ok out) = Some false.
Proof. vm_compute. repeat split; reflexivity. Qed.

(** ** Rules of the program logic *)

Section Logic.

Context {A B : Type} (E : Prop) (P : Event -> Prop).

Lemma triple_ret (Q : A -> Prop) (a : A) : Q a -> triple E P Q (ret a).
Proof.
  intros HQ r. exists []. cbn. rewrite app_nil_r. auto.
Qed.

Lemma triple_raise (Q : A -> Prop) (e : Exn) : E -> triple E P Q (raise e).
Proof.
  intros HE r. exists []. cbn. rewrite app_nil_r. auto.
Qed.

Lemma triple_bind (Q1 : A -> Prop) (Q : B -> Prop) (m : M A) (k : A -> M B) :
  triple E P Q1 m ->
  (forall a, Q1 a -> triple E P Q (k a)) ->
  triple E P Q (bind m k).
Proof.
  intros Hm Hk r. unfold bind.
  destruct (Hm r) as (e1 & Ht1 & HP1 & HQ1).
  destruct (m r) as [[a|e] r1]; cbn [fst snd] in *.
  - destruct (Hk a HQ1 r1) as (e2 & Ht2 & HP2 & HQ2).
    exists (e1 ++ e2). rewrite Ht2, Ht1, app_assoc.
    split; [reflexivity|]. split; [apply Forall_app; auto|exact HQ2].
  - exists e1. auto.
Qed.

Lemma triple_weaken (E' : Prop) (P' : Event -> Prop) (Q Q' : A -> Prop)
    (m : M A) :
  triple E' P' Q' m ->
  (E' -> E) -> (forall e, P' e -> P e) -> (forall a, Q' a -> Q a) ->
  triple E P Q m.
Proof.
  intros Hm HE HP HQ r. destruct (Hm r) as (evs & Ht & Hevs & Hout).
  exists evs. split; [exact Ht|]. split.
  - eapply Forall_impl; eauto.
  - destruct (fst (m r)); auto.
Qed.

Lemma triple_events (P' : Event -> Prop) (Q : A -> Prop) (m : M A) :
  triple E P' Q m -> (forall e, P' e -> P e) -> triple E P Q m.
Proof. intros Hm HP. eapply triple_weaken; eauto. Qed.

Lemma triple_post (Q Q' : A -> Prop) (m : M A) :
  triple E P Q' m -> (forall a, Q' a -> Q a) -> triple E P Q m.
Proof. intros Hm HQ. eapply triple_weaken; eauto. Qed.

End Logic.

Lemma triple_emit E (P : Event -> Prop) (Q : unit -> Prop) e :
  P e -> Q tt -> triple E P Q (emit e).
Proof.
  intros HP HQ r. exists [e]. cbn. auto.
Qed.

Lemma triple_get_processes E P (Q : gmap string Popen -> Prop) :
  (forall ps, Q ps) -> triple E P Q get_processes.
Proof.
  intros HQ r. exists []. cbn. rewrite app_nil_r. auto.
Qed.

Lemma triple_set_processes E P (Q : unit -> Prop) ps :
  Q tt -> triple E P Q (set_processes ps).
Proof.
  intros HQ r. exists []. cbn. rewrite app_nil_r. auto.
Qed.

Lemma triple_get_running E P (Q : bool -> Prop) :
  (forall b, Q b) -> triple E P Q get_running.
Proof.
  intros HQ r. exists []. cbn. rewrite app_nil_r. auto.
Qed.

Lemma triple_set_running E P (Q : unit -> Prop) b :
  Q tt -> triple E P Q (set_running b).
Proof.
  intros HQ r. exists []. cbn. rewrite app_nil_r. auto.
Qed.

Lemma stop_event_handler e : stop_event e -> handler_event e.
Proof. destruct e; cbn; auto. Qed.

Lemma handler_event_start_phase l e : handler_event e -> start_phase_event l e.
Proof. destruct e; cbn; tauto. Qed.

Lemma start_phase_event_mono l l' e :
  (forall x, x ∈ l -> x ∈ l') -> start_phase_event l e -> start_phase_event l' e.
Proof. intros Hl. destruct e; cbn; auto. Qed.

(** ** Counters *)

Ltac counters_tac :=
  unfold counters, incr_passed, incr_failed, incr_total, set_technology,
    set_communication in *;
  cbn [total_tests passed_tests failed_tests] in *; lia.

Lemma counters_mono n n' res : n <= n' -> counters n res -> counters n' res.
Proof. intros. counters_tac. Qed.

Lemma counters_initial : counters 0 initial_results.
Proof. unfold initial_results. counters_tac. Qed.

Lemma counters_step n res (ok : bool) :
  counters n res ->
  counters (n + 1) (if ok then incr_passed (incr_total res)
                    else incr_failed (incr_total res)).
Proof. intros. destruct ok; counters_tac. Qed.

Lemma counters_set_technology n k t res :
  counters n res -> counters n (set_technology k t res).
Proof. intros. counters_tac. Qed.

Lemma counters_communication n k (b : bool) res :
  counters n res ->
  counters (n + 1)
    (if b then incr_passed (set_communication k b (incr_total res))
     else incr_failed (set_communication k b (incr_total res))).
Proof. intros. destruct b; counters_tac. Qed.

Lemma handler_event_test_phase e : handler_event e -> test_phase_event e.
Proof. destruct e; cbn; tauto. Qed.

Lemma attempted_subseteq technologies W l x :
  x ∈ attempted technologies W l -> x ∈ l.
Proof.
  induction l as [|k rest IH]; cbn [attempted]; [auto|].
  rewrite !elem_of_cons. intros [->|Hx]; [auto|].
  destruct (critical_failure technologies W k).
  - by apply elem_of_nil in Hx.
  - auto.
Qed.

Section RunnerFacts.

Variable technologies : list (string * TechnologyConfig).
Variable W : World.
Variable E : Prop.

Lemma lookup_tech_triple P k :
  declared technologies E k ->
  triple E P (fun c => assoc technologies k = Some c) (lookup_tech technologies k).
Proof.
  intros Hk. unfold lookup_tech.
  destruct (assoc technologies k) as [c|] eqn:Hc.
  - apply triple_ret. reflexivity.
  - apply triple_raise. auto.
Qed.

Lemma stop_service_triple k :
  declared technologies E k ->
  triple E stop_event (fun _ => True) (stop_service technologies k).
Proof.
  intros Hk. unfold stop_service.
  eapply triple_bind; [apply triple_get_processes; exact (fun _ => I)|].
  intros ps _. destruct (ps !! k) as [process|]; [|by apply triple_ret].
  eapply triple_bind; [apply lookup_tech_triple; exact Hk|].
  intros c _.
  eapply triple_bind; [apply triple_emit with (Q := fun _ => True); cbn; auto|].
  intros _ _. unfold logger_error.
  destruct (on_stop process).
  - eapply triple_bind; [apply triple_set_processes with (Q := fun _ => True); auto|].
    intros _ _. by apply triple_ret.
  - eapply triple_bind; [apply triple_emit with (Q := fun _ => True); cbn; auto|].
    intros _ _.
    eapply triple_bind; [apply triple_set_processes with (Q := fun _ => True); auto|].
    intros _ _. by apply triple_ret.
  - eapply triple_bind; [apply triple_emit with (Q := fun _ => True); cbn; auto|].
    intros _ _. by apply triple_ret.
Qed.

Lemma stop_loop_triple l :
  Forall (declared technologies E) l ->
  triple E stop_event (fun _ => True) (stop_loop technologies l).
Proof.
  induction 1 as [|k l Hk Hl IH]; cbn [stop_loop].
  - by apply triple_ret.
  - eapply triple_bind; [apply triple_get_processes; exact (fun _ => I)|].
    intros ps _. destruct (ps !! k); [|exact IH].
    eapply triple_bind; [apply stop_service_triple; exact Hk|].
    intros _ _. exact IH.
Qed.

Hypothesis stop_order_declared : Forall (declared technologies E) stop_order.

Lemma stop_all_services_triple :
  triple E stop_event (fun _ => True) (stop_all_services technologies).
Proof. apply stop_loop_triple, stop_order_declared. Qed.

Lemma signal_handler_triple :
  triple E handler_event (fun _ => True) (_signal_handler technologies).
Proof.
  unfold _signal_handler.
  eapply triple_bind; [apply triple_emit with (Q := fun _ => True); cbn; auto|].
  intros _ _.
  eapply triple_bind; [apply triple_set_running with (Q := fun _ => True); auto|].
  intros _ _.
  eapply triple_events; [apply stop_all_services_triple|].
  apply stop_event_handler.
Qed.

Lemma checkpoint_triple :
  triple E handler_event (fun _ => True) (checkpoint technologies W).
Proof.
  intros r. unfold checkpoint.
  destruct (signal_at W (clock r)).
  - apply (signal_handler_triple
             {| processes := processes r; running := running r;
                clock := S (clock r); trace := trace r |}).
  - exists []. cbn. rewrite app_nil_r. auto.
Qed.

Lemma sleep_raises_leb (secs : Z) :
  match sleep_raises secs with
  | Some _ => (0 <=? secs) = false
  | None => (0 <=? secs) = true
  end.
Proof. unfold sleep_raises. destruct (Z.ltb_spec secs 0); lia. Qed.

Lemma start_service_triple k :
  declared technologies E k ->
  triple E (start_phase_event [k])
    (fun ok => exists c, assoc technologies k = Some c /\ ok = start_succeeds W c)
    (start_service technologies W k).
Proof.
  intros Hk. unfold start_service, logger_error.
  eapply triple_bind; [apply lookup_tech_triple; exact Hk|].
  intros c Hc. cbn beta in Hc.
  assert (Hret : forall b, b = start_succeeds W c ->
            triple E (start_phase_event [k])
              (fun ok => exists c, assoc technologies k = Some c
                                   /\ ok = start_succeeds W c) (ret b))
    by (intros b ->; apply triple_ret; eauto).
  eapply triple_bind;
    [apply triple_emit with (Q := fun _ => True); cbn; auto using list_elem_of_here|].
  intros _ _. unfold start_succeeds in Hret.
  destruct (executable_exists W (executable c)); cbn [negb andb] in *.
  - destruct (popen W (executable c)) as [process|e].
    + eapply triple_bind; [apply triple_get_processes; exact (fun _ => I)|].
      intros ps _.
      eapply triple_bind;
        [apply triple_set_processes with (Q := fun _ => True); auto|].
      intros _ _.
      eapply triple_bind;
        [apply triple_emit with (Q := fun _ => True); cbn; auto using list_elem_of_here|].
      intros _ _.
      pose proof (sleep_raises_leb (startup_time c)) as Hsleep.
      destruct (sleep_raises (startup_time c)) as [e|];
        rewrite Hsleep in Hret; cbn [andb] in Hret.
      * eapply triple_bind;
          [apply triple_emit with (Q := fun _ => True); cbn; auto|].
        intros _ _. by apply Hret.
      * destruct (survives_startup process).
        -- by apply Hret.
        -- eapply triple_bind;
             [apply triple_emit with (Q := fun _ => True); cbn; auto|].
           intros _ _. by apply Hret.
    + eapply triple_bind;
        [apply triple_emit with (Q := fun _ => True); cbn; auto|].
      intros _ _. by apply Hret.
  - eapply triple_bind;
      [apply triple_emit with (Q := fun _ => True); cbn; auto|].
    intros _ _. by apply Hret.
Qed.

Lemma checkpoint_start_phase l :
  triple E (start_phase_event l) (fun _ => True) (checkpoint technologies W).
Proof.
  eapply triple_events; [apply checkpoint_triple|].
  apply handler_event_start_phase.
Qed.

Lemma start_loop_triple l : forall started_services,
  Forall (declared technologies E) l ->
  triple E (start_phase_event (attempted technologies W l))
    (fun o => o = if existsb (critical_failure technologies W) l then None
                  else Some (started_services ++ started_in technologies W l))
    (start_loop technologies W l started_services).
Proof.
  induction l as [|k rest IH]; intros started Hl; cbn [start_loop].
  - apply triple_ret. cbn. by rewrite app_nil_r.
  - apply Forall_cons in Hl as [Hk Hrest].
    cbn [attempted existsb].
    eapply triple_bind.
    { eapply triple_events; [apply start_service_triple; exact Hk|].
      intros e. apply start_phase_event_mono.
      intros x ->%list_elem_of_singleton. apply list_elem_of_here. }
    intros ok (c & Hc & ->).
    eapply triple_bind; [apply checkpoint_start_phase|]. intros _ _.
    assert (Hok : start_ok technologies W k = start_succeeds W c)
      by (unfold start_ok; by rewrite Hc).
    assert (Hcf : critical_failure technologies W k
                  = critical c && negb (start_succeeds W c))
      by (unfold critical_failure; by rewrite Hc).
    destruct (start_succeeds W c) eqn:Hs.
    + rewrite Hcf, andb_false_r. cbn [orb].
      eapply triple_weaken; [apply (IH (started ++ [k])); exact Hrest|auto| |].
      * intros e. apply start_phase_event_mono. intros x Hx. by right.
      * intros o ->. destruct (existsb _ rest); [reflexivity|].
        unfold started_in. rewrite filter_cons_True by exact Hok.
        by rewrite <- app_assoc.
    + eapply triple_bind; [apply lookup_tech_triple; exact Hk|].
      intros c' Hc'. cbn beta in Hc'. rewrite Hc in Hc'. injection Hc' as <-.
      unfold logger_error.
      eapply triple_bind;
        [apply triple_emit with (Q := fun _ => True); cbn; auto|].
      intros _ _. rewrite Hcf, andb_true_r.
      destruct (critical c); cbn [orb].
      * eapply triple_bind;
          [apply triple_emit with (Q := fun _ => True); cbn; auto|].
        intros _ _.
        eapply triple_bind.
        { eapply triple_events; [apply stop_all_services_triple|].
          intros e He. apply handler_event_start_phase, stop_event_handler, He. }
        intros _ _. by apply triple_ret.
      * eapply triple_weaken; [apply (IH started); exact Hrest|auto| |].
        -- intros e. apply start_phase_event_mono. intros x Hx. by right.
        -- intros o ->. destruct (existsb _ rest); [reflexivity|].
           unfold started_in. rewrite filter_cons_False; [reflexivity|].
           rewrite Hok. discriminate.
Qed.

Lemma checkpoint_test_phase :
  triple E test_phase_event (fun _ => True) (checkpoint technologies W).
Proof.
  eapply triple_events; [apply checkpoint_triple|].
  apply handler_event_test_phase.
Qed.

Lemma check_service_health_triple k :
  declared technologies E k ->
  triple E test_phase_event (fun _ => True)
    (check_service_health technologies W k).
Proof.
  intros Hk. unfold check_service_health.
  eapply triple_bind; [apply lookup_tech_triple; exact Hk|]. intros c _.
  eapply triple_bind; [apply triple_emit with (Q := fun _ => True); cbn; auto|].
  intros _ _. by apply triple_ret.
Qed.

Lemma run_performance_test_triple k :
  declared technologies E k ->
  triple E test_phase_event (fun _ => True)
    (run_performance_test technologies W k).
Proof.
  intros Hk. unfold run_performance_test.
  eapply triple_bind; [apply lookup_tech_triple; exact Hk|]. intros c _.
  eapply triple_bind; [apply triple_emit with (Q := fun _ => True); cbn; auto|].
  intros _ _. by apply triple_ret.
Qed.

Lemma run_stress_test_triple k :
  declared technologies E k ->
  triple E test_phase_event (fun _ => True)
    (run_stress_test technologies W k).
Proof.
  intros Hk. unfold run_stress_test.
  eapply triple_bind; [apply lookup_tech_triple; exact Hk|]. intros c _.
  eapply triple_bind; [apply triple_emit with (Q := fun _ => True); cbn; auto|].
  intros _ _. by apply triple_ret.
Qed.

Lemma checkpoint_comm_phase started :
  triple E (comm_phase_event started) (fun _ => True) (checkpoint technologies W).
Proof.
  eapply triple_events; [apply checkpoint_triple|].
  intros e. destruct e; cbn; tauto.
Qed.

Lemma test_service_communication_triple started tech1 tech2 :
  tech1 ∈ started -> tech2 ∈ started ->
  triple E (comm_phase_event started) (fun _ => True)
    (test_service_communication technologies W tech1 tech2).
Proof.
  intros H1 H2. unfold test_service_communication, logger_error.
  destruct (assoc technologies tech1) as [c1|];
    [destruct (assoc technologies tech2) as [c2|]|].
  - eapply triple_bind;
      [apply triple_emit with (Q := fun _ => True); cbn; auto|].
    intros _ _. destruct (communication_response W (port c1) (port c2)).
    + by apply triple_ret.
    + eapply triple_bind;
        [apply triple_emit with (Q := fun _ => True); cbn; auto|].
      intros _ _. by apply triple_ret.
  - eapply triple_bind;
      [apply triple_emit with (Q := fun _ => True); cbn; auto|].
    intros _ _. by apply triple_ret.
  - eapply triple_bind;
      [apply triple_emit with (Q := fun _ => True); cbn; auto|].
    intros _ _. by apply triple_ret.
Qed.

Lemma test_body_triple n k res :
  declared technologies E k -> counters n res ->
  triple E test_phase_event (counters (n + 3))
    (test_body technologies W k res).
Proof.
  intros Hk Hres. unfold test_body.
  eapply triple_bind; [apply lookup_tech_triple; exact Hk|]. intros c _.
  eapply triple_bind; [apply check_service_health_triple; exact Hk|].
  intros [healthy msg] _.
  eapply triple_bind; [apply checkpoint_test_phase|]. intros _ _.
  cbn [fst snd].
  pose proof (counters_step n res healthy Hres) as H1.
  destruct healthy.
  - eapply triple_bind with (Q1 := fun pr => counters (n + 2) (snd pr)).
    { eapply triple_bind; [apply run_performance_test_triple; exact Hk|].
      intros perf _.
      eapply triple_bind; [apply checkpoint_test_phase|]. intros _ _.
      apply triple_ret. cbn [snd].
      replace (n + 2) with (n + 1 + 1) by lia. apply counters_step, H1. }
    intros pr H2.
    eapply triple_bind with (Q1 := fun sr => counters (n + 3) (snd sr)).
    { eapply triple_bind; [apply run_stress_test_triple; exact Hk|].
      intros st _.
      eapply triple_bind; [apply checkpoint_test_phase|]. intros _ _.
      apply triple_ret. cbn [snd].
      replace (n + 3) with (n + 2 + 1) by lia. apply counters_step, H2. }
    intros sr H3.
    eapply triple_bind; [apply checkpoint_test_phase|]. intros _ _.
    apply triple_ret, counters_set_technology, H3.
  - eapply triple_bind with (Q1 := fun pr => counters (n + 1) (snd pr));
      [by apply triple_ret|].
    intros pr H2.
    eapply triple_bind with (Q1 := fun sr => counters (n + 1) (snd sr));
      [by apply triple_ret|].
    intros sr H3.
    eapply triple_bind; [apply checkpoint_test_phase|]. intros _ _.
    apply triple_ret, counters_set_technology.
    eapply counters_mono; [|exact H3]. lia.
Qed.

Lemma test_loop_triple l : forall n res,
  Forall (declared technologies E) l -> counters n res ->
  triple E test_phase_event (counters (n + 3 * Z.of_nat (length l)))
    (test_loop technologies W l res).
Proof.
  induction l as [|k rest IH]; intros n res Hl Hres; cbn [test_loop].
  - apply triple_ret. eapply counters_mono; [|exact Hres]. cbn. lia.
  - apply Forall_cons in Hl as [Hk Hrest].
    eapply triple_bind; [apply triple_get_running; exact (fun _ => I)|].
    intros running _. destruct running; cbn [negb].
    + eapply triple_bind; [apply test_body_triple; eauto|].
      intros res' Hres'.
      eapply triple_post; [apply (IH (n + 3)); auto|].
      intros a. apply counters_mono. cbn [length]. lia.
    + apply triple_ret. eapply counters_mono; [|exact Hres]. lia.
Qed.

Lemma comm_body_triple n started tech1 tech2 res :
  counters n res ->
  triple E (comm_phase_event started) (counters (n + 1))
    (comm_body technologies W started tech1 tech2 res).
Proof.
  intros Hres. unfold comm_body.
  destruct (bool_decide_reflect (tech1 ∈ started)) as [H1|H1]; cbn [andb];
    [destruct (bool_decide_reflect (tech2 ∈ started)) as [H2|H2]|].
  - eapply triple_bind; [by apply test_service_communication_triple|].
    intros b _.
    eapply triple_bind; [apply checkpoint_comm_phase|]. intros _ _.
    apply triple_ret, counters_communication, Hres.
  - apply triple_ret. eapply counters_mono; [|exact Hres]. lia.
  - apply triple_ret. eapply counters_mono; [|exact Hres]. lia.
Qed.

Lemma comm_loop_triple pairs : forall n started res,
  counters n res ->
  triple E (comm_phase_event started) (counters (n + Z.of_nat (length pairs)))
    (comm_loop technologies W pairs started res).
Proof.
  induction pairs as [|[tech1 tech2] rest IH]; intros n started res Hres;
    cbn [comm_loop].
  - apply triple_ret. eapply counters_mono; [|exact Hres]. cbn. lia.
  - eapply triple_bind; [apply triple_get_running; exact (fun _ => I)|].
    intros running _. destruct running; cbn [negb].
    + eapply triple_bind; [apply comm_body_triple; eauto|].
      intros res' Hres'.
      eapply triple_post; [apply (IH (n + 1)); auto|].
      intros a. apply counters_mono. cbn [length]. lia.
    + apply triple_ret. eapply counters_mono; [|exact Hres]. lia.
Qed.

Hypothesis start_order_declared : Forall (declared technologies E) start_order.

Lemma started_in_declared :
  Forall (declared technologies E) (started_in technologies W start_order).
Proof.
  apply Forall_forall. intros k Hk. unfold started_in in Hk.
  apply list_elem_of_filter in Hk as [_ Hk].
  eapply Forall_forall in start_order_declared; eauto.
Qed.

Lemma started_in_length :
  Z.of_nat (length (started_in technologies W start_order)) <= 10.
Proof.
  pose proof (length_filter (fun k => start_ok technologies W k = true)
                start_order) as H.
  unfold started_in. change (length start_order) with 10%nat in H. lia.
Qed.

(** The whole run: its events, and the record it returns. *)
Lemma run_integration_tests_triple :
  triple E
    (fun e => if aborts technologies W
              then start_phase_event (attempted technologies W start_order) e
              else run_event start_order (started_in technologies W start_order) e)
    (fun res => if aborts technologies W then res = initial_results
                else exists res0, counters 34 res0 /\ res = finalize res0)
    (run_integration_tests technologies W).
Proof.
  unfold run_integration_tests.
  pose proof (start_loop_triple start_order [] start_order_declared) as Hstart.
  fold (aborts technologies W) in Hstart.
  fold (started_in technologies W start_order) in Hstart.
  cbn [app] in Hstart.
  destruct (aborts technologies W).
  - eapply triple_bind; [exact Hstart|]. intros o ->. by apply triple_ret.
  - set (started := started_in technologies W start_order) in *.
    eapply triple_bind.
    { eapply triple_events; [exact Hstart|].
      intros e He. destruct e; cbn [start_phase_event run_event] in He |- *;
        try tauto; eapply attempted_subseteq; eauto. }
    intros o ->.
    assert (Htest : forall e, test_phase_event e ->
                      run_event start_order started e)
      by (intros e; destruct e; cbn [test_phase_event run_event]; tauto).
    eapply triple_bind.
    { eapply triple_events; [apply checkpoint_test_phase|exact Htest]. }
    intros _ _.
    eapply triple_bind.
    { eapply triple_events;
        [apply (test_loop_triple started 0 initial_results);
         [apply started_in_declared|apply counters_initial]|exact Htest]. }
    intros res1 Hres1.
    eapply triple_bind.
    { eapply triple_events;
        [apply (comm_loop_triple communication_pairs _ started res1 Hres1)|].
      intros e. destruct e; cbn [comm_phase_event run_event]; tauto. }
    intros res2 Hres2.
    eapply triple_bind.
    { eapply triple_events; [apply stop_all_services_triple|].
      intros e. destruct e; cbn [stop_event run_event]; tauto. }
    intros _ _. apply triple_ret. exists res2. split; [|reflexivity].
    eapply counters_mono; [|exact Hres2].
    pose proof started_in_length. fold started in H.
    change (length communication_pairs) with 4%nat. lia.
Qed.

End RunnerFacts.

(** * The shipped registry *)

Lemma default_start_order_declared :
  Forall (declared default_technologies False) start_order.
Proof.
  unfold start_order, stop_order.
  repeat (constructor;
          [unfold declared; intros H; vm_compute in H; discriminate H|]).
  constructor.
Qed.

Lemma default_stop_order_declared :
  Forall (declared default_technologies False) stop_order.
Proof.
  unfold start_order, stop_order.
  repeat (constructor;
          [unfold declared; intros H; vm_compute in H; discriminate H|]).
  constructor.
Qed.

(** With the shipped registry the run raises nothing: it returns a record,
    and its trace and record are as [run_integration_tests_triple] says. *)
Lemma run_default (W : World) :
  exists res,
    fst (run_integration_tests default_technologies W init_runner) = Ok res /\
    Forall (fun e =>
              if aborts default_technologies W
              then start_phase_event
                     (attempted default_technologies W start_order) e
              else run_event start_order
                     (started_in default_technologies W start_order) e)
           (trace (snd (run_integration_tests default_technologies W init_runner))) /\
    if aborts default_technologies W then res = initial_results
    else exists res0, counters 34 res0 /\ res = finalize res0.
Proof.
  destruct (run_integration_tests_triple default_technologies W False
              default_stop_order_declared default_start_order_declared
              init_runner) as (evs & Htrace & Hevs & Hout).
  cbn [trace init_runner app] in Htrace. rewrite Htrace.
  destruct (fst (run_integration_tests default_technologies W init_runner))
    as [res|]; [|contradiction].
  exists res. auto.
Qed.

(** ** Success rate *)

Lemma percentage_range (p t : Z) :
  0 <= p <= t -> 0 < t <= 34 ->
  PrimFloat.leb 0 (percentage p t) = true /\
  PrimFloat.leb (percentage p t) 100 = true.
Proof.
  intros Hp Ht.
  assert (Htab :
    forallb (fun t =>
      forallb (fun p =>
        PrimFloat.leb 0 (percentage (Z.of_nat p) (Z.of_nat t))
        && PrimFloat.leb (percentage (Z.of_nat p) (Z.of_nat t)) 100)
      (seq 0 (S t))) (seq 1 34) = true) by (vm_compute; reflexivity).
  rewrite forallb_forall in Htab.
  specialize (Htab (Z.to_nat t)). rewrite forallb_forall in Htab.
  specialize (fun H => Htab H (Z.to_nat p)).
  rewrite !Z2Nat.id in Htab by lia.
  apply andb_true_iff, Htab; apply in_seq; lia.
Qed.

Lemma percentage_near (p t : Z) :
  0 <= p <= t -> 0 < t <= 34 ->
  near_percentage (percentage p t) p t = true.
Proof.
  intros Hp Ht.
  assert (Htab :
    forallb (fun t =>
      forallb (fun p =>
        near_percentage (percentage (Z.of_nat p) (Z.of_nat t))
                        (Z.of_nat p) (Z.of_nat t))
      (seq 0 (S t))) (seq 1 34) = true) by (vm_compute; reflexivity).
  rewrite forallb_forall in Htab.
  specialize (Htab (Z.to_nat t)). rewrite forallb_forall in Htab.
  specialize (fun H => Htab H (Z.to_nat p)).
  rewrite !Z2Nat.id in Htab by lia.
  apply Htab; apply in_seq; lia.
Qed.

(** C10. The run on the shipped registry always returns a record whose
    counters add up: total_tests = passed_tests + failed_tests. When the
    run is not cut short by a critical start failure, the record is
    finalised. With total_tests > 0, success_rate is
    passed_tests / total_tests * 100 computed in binary64, a finite number
    within 10^-12 of the exact percentage, between 0 and 100; with
    total_tests = 0 the division is skipped, success_rate is 0 and
    overall_passed is false; overall_passed is success_rate >= 90. *)
Theorem C10_counters_and_success_rate (W : World) :
  exists res,
    fst (run_integration_tests default_technologies W init_runner) = Ok res /\
    total_tests res = passed_tests res + failed_tests res /\
    0 <= passed_tests res /\ 0 <= failed_tests res /\
    (aborts default_technologies W = false ->
     exists rate,
       success_rate res = Some rate /\
       overall_passed res = Some (PrimFloat.leb 90 rate) /\
       PrimFloat.leb 0 rate = true /\ PrimFloat.leb rate 100 = true /\
       (0 < total_tests res ->
        rate = (of_uint63 (Uint63.of_Z (passed_tests res))
                / of_uint63 (Uint63.of_Z (total_tests res)) * 100)%float /\
        near_percentage rate (passed_tests res) (total_tests res) = true) /\
       (total_tests res = 0 ->
        rate = 0%float /\ overall_passed res = Some false)).
Proof.
  destruct (run_default W) as (res & Hrun & _ & Hres).
  exists res. split; [exact Hrun|].
  destruct (aborts default_technologies W).
  - subst res. cbn. repeat split; try lia; discriminate.
  - destruct Hres as (res0 & (Hsum & Hp & Hf & Hle) & ->).
    unfold finalize.
    cbn [total_tests passed_tests failed_tests success_rate overall_passed].
    repeat (split; [assumption|]). intros _.
    destruct (Z.ltb_spec 0 (total_tests res0)) as [Hpos|Hzero].
    + exists (percentage (passed_tests res0) (total_tests res0)).
      destruct (percentage_range (passed_tests res0) (total_tests res0))
        as [H0 H100]; [lia|lia|].
      pose proof (percentage_near (passed_tests res0) (total_tests res0))
        as Hnear.
      repeat split; auto; try lia. apply Hnear; lia.
    + exists 0%float. repeat split; auto; lia.
Qed.

(** The run in which only the health check of [neuro-fcc] fails: 31 of 32
    checks pass, the rate is 96.875. *)
Lemma C10_counters_and_success_rate_witness :
  exists res,
    fst (run_integration_tests default_technologies
           (with_health 8082 (Response 500 "") good_world) init_runner)
      = Ok res /\
    total_tests res = 32 /\ passed_tests res = 31 /\ failed_tests res = 1 /\
    success_rate res = Some 96.875%float /\ overall_passed res = Some true.
Proof.
  destruct (C10_counters_and_success_rate
              (with_health 8082 (Response 500 "") good_world))
    as (res & Hrun & Hsum & _ & _ & Hfinal).
  assert (Hab : aborts default_technologies
                  (with_health 8082 (Response 500 "") good_world) = false)
    by (vm_compute; reflexivity).
  destruct (Hfinal Hab) as (rate & Hrate & Hoverall & _ & _ & Hpos & _).
  assert (Hcount :
    match fst (run_integration_tests default_technologies
                 (with_health 8082 (Response 500 "") good_world) init_runner)
    with
    | Ok res => total_tests res = 32 /\ passed_tests res = 31
    | Raised _ => True
    end) by (vm_compute; split; reflexivity).
  rewrite Hrun in Hcount. destruct Hcount as [Htotal Hpassed].
  rewrite Htotal, Hpassed in Hpos, Hsum.
  destruct (Hpos ltac:(lia)) as [-> _].
  exists res. split; [exact Hrun|]. split; [exact Htotal|].
  split; [exact Hpassed|]. split; [lia|].
  rewrite Hrate, Hoverall. split; reflexivity.
Defined.

(** ** Critical start failure *)

Lemma attempted_critical technologies W pre k post x :
  critical_failure technologies W k = true ->
  x ∈ attempted technologies W (pre ++ k :: post) -> x ∈ pre ++ [k].
Proof.
  intros Hk. induction pre as [|p pre IH]; cbn [app attempted].
  - rewrite Hk. auto.
  - rewrite !elem_of_cons. intros [->|Hx]; [auto|].
    destruct (critical_failure technologies W p).
    + by apply elem_of_nil in Hx.
    + auto.
Qed.

Lemma aborts_critical W pre k post :
  start_order = pre ++ k :: post ->
  critical_failure default_technologies W k = true ->
  aborts default_technologies W = true.
Proof.
  intros Horder Hk. unfold aborts. rewrite Horder.
  apply existsb_exists. exists k. split; [|exact Hk].
  apply in_or_app. right. by left.
Qed.

Lemma start_order_NoDup : NoDup start_order.
Proof. apply (bool_decide_unpack _). vm_compute. exact I. Qed.

Lemma start_attempts_event tr x :
  x ∈ start_attempts tr -> EvStartService x ∈ tr.
Proof.
  unfold start_attempts. rewrite list_elem_of_omap.
  intros (e & He & Hx). destruct e; try discriminate.
  injection Hx as ->. exact He.
Qed.

Lemma spawned_event tr x : x ∈ spawned tr -> exists p, EvSpawn x p ∈ tr.
Proof.
  unfold spawned. rewrite list_elem_of_omap.
  intros (e & He & Hx). destruct e; try discriminate.
  injection Hx as ->. eauto.
Qed.

Lemma communications_event tr k1 k2 :
  (k1, k2) ∈ communications tr -> EvCommunication k1 k2 ∈ tr.
Proof.
  unfold communications. rewrite list_elem_of_omap.
  intros (e & He & Hx). destruct e; try discriminate.
  injection Hx as -> ->. exact He.
Qed.

(** C2, as the code has it. What cuts the run short is the failed start of
    a critical service (no executable, [Popen] raising, or the process
    gone after its start-up time), not its health check: then every event
    of the run is the start of a service up to that one, a teardown action,
    an error line or a signal, so no service after it in [start_order] is
    started or even attempted, and no probe is issued. *)
Theorem C2_critical_start_failure (W : World) pre k post :
  start_order = pre ++ k :: post ->
  critical_failure default_technologies W k = true ->
  let tr := trace (snd (run_integration_tests default_technologies W init_runner)) in
  (forall r, fst (start_service default_technologies W k r) = Ok false) /\
  (forall x, x ∈ post -> (x ∉ start_attempts tr) /\ (x ∉ spawned tr)) /\
  Forall (start_phase_event (pre ++ [k])) tr.
Proof.
  intros Horder Hk tr. split.
  { intros r. unfold critical_failure in Hk.
    destruct (assoc default_technologies k) as [c|] eqn:Hc; [|discriminate].
    apply andb_true_iff in Hk as [_ Hfail%negb_true_iff].
    destruct (start_service_triple default_technologies W False k
                ltac:(unfold declared; congruence) r) as (_ & _ & _ & Hout).
    destruct (fst (start_service default_technologies W k r)) as [ok|];
      [|contradiction].
    destruct Hout as (c' & Hc' & ->). congruence. }
  destruct (run_default W) as (res & _ & Hevs & _). fold tr in Hevs.
  rewrite (aborts_critical W pre k post Horder Hk), Horder in Hevs.
  assert (Hall : Forall (start_phase_event (pre ++ [k])) tr).
  { eapply Forall_impl; [exact Hevs|]. intros e.
    destruct e; cbn [start_phase_event]; auto;
      apply attempted_critical, Hk. }
  split; [|exact Hall].
  intros x Hx.
  assert (Hfresh : x ∉ pre ++ [k]).
  { pose proof start_order_NoDup as Hnd. rewrite Horder in Hnd.
    apply NoDup_app in Hnd as (_ & Hpre & Hnd).
    apply NoDup_cons in Hnd as (Hkpost & _).
    rewrite elem_of_app, list_elem_of_singleton.
    intros [Hin| ->]; [|contradiction].
    apply (Hpre x Hin). by right. }
  rewrite Forall_forall in Hall.
  split.
  - intros Hin%start_attempts_event. exact (Hfresh (Hall _ Hin)).
  - intros (p & Hin)%spawned_event. exact (Hfresh (Hall _ Hin)).
Qed.

Lemma C2_critical_start_failure_witness :
  let W := without_executable "self_healing_bios_demo" good_world in
  let tr := trace (snd (run_integration_tests default_technologies W init_runner)) in
  ("neuro-fcc" ∉ start_attempts tr) /\ ("neuro-fcc" ∉ spawned tr).
Proof.
  intros W tr.
  apply (C2_critical_start_failure W ["air-to-air-mesh"]
           "self-healing-avionics-bios"
           [ "neuro-fcc"; "self-adaptive-rotor-blades"; "vortex-shield";
             "cold-jet"; "local-gravity-field-navigation";
             "predictive-airflow-engine"; "air-swarm-os"; "star-nav-core" ]
           eq_refl eq_refl).
  apply list_elem_of_here.
Defined.

(** ** Communication pairs *)



(** ** Teardown, exactly *)

Lemma filter_ext_in {A} (P Q : A -> Prop)
    `{!forall x, Decision (P x)} `{!forall x, Decision (Q x)} (l : list A) :
  (forall x, x ∈ l -> P x <-> Q x) -> filter P l = filter Q l.
Proof.
  induction l as [|a l IH]; intros Hl; [reflexivity|].
  assert (Ha : P a <-> Q a) by (apply Hl, list_elem_of_here).
  assert (Hrec : filter P l = filter Q l)
    by (apply IH; intros x Hx; apply Hl; by right).
  destruct (decide (P a)) as [HP|HP].
  - rewrite !filter_cons_True by tauto. by rewrite Hrec.
  - rewrite !filter_cons_False by tauto. exact Hrec.
Qed.

Lemma omap_ext_in {A B} (f g : A -> option B) (l : list A) :
  (forall x, x ∈ l -> f x = g x) -> omap f l = omap g l.
Proof.
  induction l as [|a l IH]; intros Hl; [reflexivity|].
  cbn [omap list_omap]. rewrite (Hl a) by apply list_elem_of_here.
  fold (omap f l). fold (omap g l).
  rewrite IH by (intros x Hx; apply Hl; by right). reflexivity.
Qed.

Section Teardown.

Variable technologies : list (string * TechnologyConfig).

Lemma stop_service_absent k r :
  processes r !! k = None -> stop_service technologies k r = (Ok true, r).
Proof.
  intros Hk. unfold stop_service, bind, get_processes. by rewrite Hk.
Qed.

Lemma stop_service_live k r p c :
  processes r !! k = Some p -> assoc technologies k = Some c ->
  exists evs,
    stop_service technologies k r =
      (Ok (negb (raises_on_stop p)),
       {| processes := if raises_on_stop p then processes r
                       else delete k (processes r);
          running := running r; clock := clock r;
          trace := trace r ++ evs |}) /\
    terminations evs = [k] /\
    error_lines evs = option_list (stop_error technologies (processes r) k).
Proof.
  intros Hp Hc.
  unfold stop_service, bind, get_processes, lookup_tech, stop_error,
    raises_on_stop.
  rewrite Hp, Hc. cbn.
  destruct (on_stop p) as [| |e]; cbn.
  - exists [EvTerminate k]. auto.
  - exists [EvTerminate k; EvKill k]. rewrite <- app_assoc. auto.
  - exists [EvTerminate k;
            EvLogError ("Failed to stop " ++ name c ++ ": " ++ e)].
    rewrite <- app_assoc. auto.
Qed.

Lemma stop_loop_idle l r :
  (forall k, k ∈ l -> processes r !! k = None) ->
  stop_loop technologies l r = (Ok tt, r).
Proof.
  induction l as [|k rest IH]; intros Hl; cbn [stop_loop]; [reflexivity|].
  unfold bind at 1, get_processes.
  rewrite (Hl k) by apply list_elem_of_here.
  apply IH. intros k' Hk'. apply Hl. by right.
Qed.

Lemma stop_loop_cons_absent k rest r :
  processes r !! k = None ->
  stop_loop technologies (k :: rest) r = stop_loop technologies rest r.
Proof.
  intros Hk. cbn [stop_loop]. unfold bind at 1, get_processes. by rewrite Hk.
Qed.

Lemma stop_loop_cons_live k rest r p b r1 :
  processes r !! k = Some p ->
  stop_service technologies k r = (Ok b, r1) ->
  stop_loop technologies (k :: rest) r = stop_loop technologies rest r1.
Proof.
  intros Hk Hstop. cbn [stop_loop]. unfold bind at 1, get_processes.
  rewrite Hk. unfold bind. by rewrite Hstop.
Qed.

Lemma stop_loop_exact l : forall r,
  NoDup l -> (forall k, k ∈ l -> is_Some (assoc technologies k)) ->
  exists evs,
    fst (stop_loop technologies l r) = Ok tt /\
    running (snd (stop_loop technologies l r)) = running r /\
    (forall k, processes (snd (stop_loop technologies l r)) !! k =
               if bool_decide (k ∈ l) then after_stop (processes r !! k)
               else processes r !! k) /\
    trace (snd (stop_loop technologies l r)) = trace r ++ evs /\
    terminations evs = filter (fun k => is_Some (processes r !! k)) l /\
    error_lines evs = omap (stop_error technologies (processes r)) l.
Proof.
  induction l as [|k rest IH]; intros r Hnd Hdecl.
  - exists []. cbn. rewrite app_nil_r. repeat split; auto.
  - apply NoDup_cons in Hnd as [Hk Hnd].
    assert (Hdecl' : forall k', k' ∈ rest -> is_Some (assoc technologies k'))
      by (intros k' Hk'; apply Hdecl; by right).
    destruct (processes r !! k) as [p|] eqn:Hp.
    + destruct (Hdecl k (list_elem_of_here _ _)) as [c Hc].
      destruct (stop_service_live k r p c Hp Hc) as (ev1 & Hstop & Ht1 & He1).
      rewrite (stop_loop_cons_live k rest r p _ _ Hp Hstop).
      set (r1 := {| processes := _; running := running r; clock := clock r;
                    trace := trace r ++ ev1 |}).
      destruct (IH r1 Hnd Hdecl') as (ev2 & Hout & Hrun & Hps & Htr & Ht2 & He2).
      assert (Hother : forall k', k' ≠ k ->
                processes r1 !! k' = processes r !! k').
      { intros k' Hne. unfold r1. cbn [processes].
        destruct (raises_on_stop p); [reflexivity|].
        by apply lookup_delete_ne. }
      assert (Hrest : forall k', k' ∈ rest ->
                processes r1 !! k' = processes r !! k')
        by (intros k' Hk'; apply Hother; intros ->; contradiction).
      exists (ev1 ++ ev2). split; [exact Hout|]. split; [exact Hrun|].
      split; [|split; [|split]].
      * intros k'. rewrite Hps.
        destruct (decide (k' = k)) as [->|Hne].
        -- rewrite (bool_decide_eq_false_2 _ Hk).
           rewrite (bool_decide_eq_true_2 (k ∈ k :: rest))
             by apply list_elem_of_here.
           rewrite Hp. unfold r1, after_stop. cbn [processes].
           destruct (raises_on_stop p); [exact Hp|apply lookup_delete_eq].
        -- rewrite (Hother k' Hne).
           destruct (bool_decide_reflect (k' ∈ rest)) as [Hin|Hin].
           ++ rewrite bool_decide_eq_true_2 by (by right). reflexivity.
           ++ rewrite bool_decide_eq_false_2; [reflexivity|].
              rewrite elem_of_cons. tauto.
      * rewrite Htr. unfold r1. cbn [trace]. by rewrite app_assoc.
      * unfold terminations in *. rewrite omap_app, Ht1, Ht2.
        rewrite filter_cons_True by (rewrite Hp; eauto).
        cbn [app]. f_equal. apply filter_ext_in.
        intros k' Hk'. by rewrite (Hrest k' Hk').
      * unfold error_lines in *. rewrite omap_app, He1, He2.
        assert (Hext : omap (stop_error technologies (processes r1)) rest
                       = omap (stop_error technologies (processes r)) rest).
        { apply omap_ext_in. intros k' Hk'. unfold stop_error.
          by rewrite (Hrest k' Hk'). }
        rewrite Hext. cbn [omap list_omap].
        fold (omap (stop_error technologies (processes r)) rest).
        by destruct (stop_error technologies (processes r) k).
    + rewrite (stop_loop_cons_absent k rest r Hp).
      destruct (IH r Hnd Hdecl') as (ev2 & Hout & Hrun & Hps & Htr & Ht2 & He2).
      exists ev2. split; [exact Hout|]. split; [exact Hrun|].
      split; [|split; [exact Htr|split]].
      * intros k'. rewrite Hps.
        destruct (decide (k' = k)) as [->|Hne].
        -- rewrite (bool_decide_eq_false_2 _ Hk).
           rewrite (bool_decide_eq_true_2 (k ∈ k :: rest))
             by apply list_elem_of_here.
           by rewrite Hp.
        -- destruct (bool_decide_reflect (k' ∈ rest)) as [Hin|Hin].
           ++ rewrite bool_decide_eq_true_2 by (by right). reflexivity.
           ++ rewrite bool_decide_eq_false_2; [reflexivity|].
              rewrite elem_of_cons. tauto.
      * rewrite Ht2. rewrite filter_cons_False; [reflexivity|].
        rewrite Hp. by intros [? ?].
      * rewrite He2. cbn [omap list_omap]. unfold stop_error at 2.
        by rewrite Hp.
Qed.

End Teardown.

Lemma stop_order_NoDup : NoDup stop_order.
Proof. apply (bool_decide_unpack _). vm_compute. exact I. Qed.

Lemma stop_order_in_registry k :
  k ∈ stop_order -> is_Some (assoc default_technologies k).
Proof.
  intros Hk.
  pose proof default_stop_order_declared as Hdecl.
  rewrite Forall_forall in Hdecl. specialize (Hdecl k Hk).
  unfold declared in Hdecl.
  destruct (assoc default_technologies k); [eauto|].
  destruct (Hdecl eq_refl).
Qed.

Lemma omap_none {A B} (f : A -> option B) (l : list A) :
  (forall x, x ∈ l -> f x = None) -> omap f l = [].
Proof.
  induction l as [|a l IH]; intros Hl; [reflexivity|].
  cbn [omap list_omap]. rewrite (Hl a) by apply list_elem_of_here.
  apply IH. intros x Hx. apply Hl. by right.
Qed.

(** C3, as the code has it. [stop_all_services] walks the fixed
    [stop_order] and sends a stop to exactly the services that have an
    entry in the process table (spawned and not yet stopped), in that
    order. [stop_order] is a reverse dependency order of the registry,
    every service coming before all of its dependencies; it is not the
    reverse of [start_order]. *)
Theorem C3_teardown_order (r : Runner) :
  exists evs,
    trace (snd (stop_all_services default_technologies r)) = trace r ++ evs /\
    terminations evs = filter (fun k => is_Some (processes r !! k)) stop_order /\
    dependents_first default_technologies stop_order = true.
Proof.
  destruct (stop_loop_exact default_technologies stop_order r
              stop_order_NoDup stop_order_in_registry)
    as (evs & _ & _ & _ & Htr & Hterm & _).
  exists evs. split; [exact Htr|]. split; [exact Hterm|].
  vm_compute. reflexivity.
Qed.

(** C7, as the code has it. Stopping a service with no process entry is a
    no-op that returns [True]. After [stop_all_services] the only entries
    left among the ten services are the processes whose stop raised; a
    second call stops exactly those again and logs the same error lines as
    the first. When no stop raises, the first call logs no error and
    leaves no entry, and the second call changes nothing at all. *)
Theorem C7_stop_idempotence (r : Runner) :
  (forall k, processes r !! k = None ->
     stop_service default_technologies k r = (Ok true, r)) /\
  let r1 := snd (stop_all_services default_technologies r) in
  let out2 := stop_all_services default_technologies r1 in
  (forall k, k ∈ stop_order -> processes r1 !! k = after_stop (processes r !! k)) /\
  exists evs1 evs2,
    trace r1 = trace r ++ evs1 /\
    trace (snd out2) = trace r1 ++ evs2 /\
    terminations evs2 =
      filter (fun k => is_Some (after_stop (processes r !! k))) stop_order /\
    error_lines evs2 = error_lines evs1 /\
    ((forall k p, processes r !! k = Some p -> raises_on_stop p = false) ->
     error_lines evs1 = [] /\
     (forall k, k ∈ stop_order -> processes r1 !! k = None) /\
     out2 = (Ok tt, r1)).
Proof.
  split; [intros k; apply stop_service_absent|].
  intros r1 out2.
  destruct (stop_loop_exact default_technologies stop_order r
              stop_order_NoDup stop_order_in_registry)
    as (evs1 & _ & _ & Hps1 & Htr1 & _ & Herr1).
  destruct (stop_loop_exact default_technologies stop_order r1
              stop_order_NoDup stop_order_in_registry)
    as (evs2 & _ & _ & _ & Htr2 & Hterm2 & Herr2).
  fold (stop_all_services default_technologies) in *.
  fold r1 in Hps1, Htr1. fold out2 in Htr2.
  assert (Hleft : forall k, k ∈ stop_order ->
            processes r1 !! k = after_stop (processes r !! k)).
  { intros k Hk. rewrite Hps1. by rewrite bool_decide_eq_true_2. }
  split; [exact Hleft|].
  exists evs1, evs2. split; [exact Htr1|]. split; [exact Htr2|].
  split; [|split].
  - rewrite Hterm2. apply filter_ext_in. intros k Hk. by rewrite Hleft.
  - rewrite Herr1, Herr2. apply omap_ext_in. intros k Hk.
    unfold stop_error. rewrite (Hleft k Hk).
    destruct (processes r !! k) as [p|]; [|reflexivity].
    unfold after_stop, raises_on_stop.
    destruct (on_stop p) eqn:Hstop, (assoc default_technologies k);
      cbn [lookup]; rewrite ?Hstop; reflexivity.
  - intros Hquiet.
    assert (Hgone : forall k, k ∈ stop_order -> processes r1 !! k = None).
    { intros k Hk. rewrite (Hleft k Hk).
      destruct (processes r !! k) as [p|] eqn:Hp; [|reflexivity].
      unfold after_stop. by rewrite (Hquiet k p Hp). }
    split; [|split; [exact Hgone|]].
    + rewrite Herr1. apply omap_none. intros k Hk. unfold stop_error.
      destruct (processes r !! k) as [p|] eqn:Hp; [|reflexivity].
      specialize (Hquiet k p Hp). unfold raises_on_stop in Hquiet.
      destruct (assoc default_technologies k); [|reflexivity].
      destruct (on_stop p); [reflexivity|reflexivity|discriminate].
    + apply stop_loop_idle, Hgone.
Qed.

Lemma C7_stop_idempotence_witness :
  let r := snd (start_service default_technologies good_world "neuro-fcc"
                  init_runner) in
  let r1 := snd (stop_all_services default_technologies r) in
  processes r !! "neuro-fcc" = Some sample_process /\
  processes r1 !! "neuro-fcc" = None /\
  stop_all_services default_technologies r1 = (Ok tt, r1).
Proof.
  intros r r1.
  assert (Hps : processes r = {["neuro-fcc" := sample_process]})
    by (vm_compute; reflexivity).
  destruct (C7_stop_idempotence r)
    as (_ & _ & evs1 & evs2 & _ & _ & _ & _ & Hquiet).
  destruct Hquiet as (_ & Hgone & Hidle).
  - intros k p. rewrite Hps. intros [_ <-]%lookup_singleton_Some. reflexivity.
  - split; [by rewrite Hps, lookup_singleton_eq|].
    split; [|exact Hidle].
    apply Hgone. do 7 apply list_elem_of_further. apply list_elem_of_here.
Defined.

(** * Further properties of the runner *)

(** ** Starting one service *)

Section StartService.

Variable technologies : list (string * TechnologyConfig).
Variable W : World.

Lemma start_service_exact k c r :
  assoc technologies k = Some c ->
  exists evs,
    start_service technologies W k r =
      (Ok (start_succeeds W c),
       {| processes := match launched W c with
                       | Some process => <[k := process]> (processes r)
                       | None => processes r
                       end;
          running := running r; clock := clock r;
          trace := trace r ++ evs |}) /\
    start_attempts evs = [k] /\
    spawned evs = match launched W c with Some _ => [k] | None => [] end /\
    terminations evs = [].
Proof.
  intros Hc.
  unfold start_service, bind, lookup_tech, launched, start_succeeds,
    logger_error, emit, get_processes, set_processes, ret.
  rewrite Hc. cbn.
  destruct (executable_exists W (executable c)); cbn.
  - destruct (popen W (executable c)) as [process|e]; cbn.
    + pose proof (sleep_raises_leb (startup_time c)) as Hsleep.
      destruct (sleep_raises (startup_time c)) as [e|]; rewrite Hsleep; cbn.
      * eexists; (split; [rewrite <- !app_assoc; reflexivity|]); auto.
      * destruct (survives_startup process); cbn;
          eexists; (split; [rewrite <- !app_assoc; reflexivity|]); auto.
    + eexists; (split; [rewrite <- !app_assoc; reflexivity|]); auto.
  - eexists; (split; [rewrite <- !app_assoc; reflexivity|]); auto.
Qed.

End StartService.

(** X1. [start_service] on a declared service whose start-up time is one
    that [time.sleep] takes when it is not negative. The call answers
    [True] exactly when the executable exists, [Popen] raises nothing, the
    start-up time is not negative and the process is still alive after it.
    The process entry is written as soon as [Popen] has returned: a process
    that exits during start-up, or whose start-up sleep raises, is reported
    as a failed start and still sits in the process table, where the next
    teardown finds it. No other entry is touched, and neither is the
    [running] flag. On an undeclared key the call raises [KeyError] and
    changes nothing. *)
Theorem start_service_effect technologies (W : World) k r :
  let out := start_service technologies W k r in
  (assoc technologies k = None -> out = (Raised (KeyError k), r)) /\
  forall c,
    assoc technologies k = Some c ->
    startup_time c <= sleep_limit ->
    exists ok,
      fst out = Ok ok /\
      (ok = true <->
         executable_exists W (executable c) = true /\
         0 <= startup_time c /\
         exists process,
           popen W (executable c) = inl process /\
           survives_startup process = true) /\
      (forall process,
         executable_exists W (executable c) = true ->
         popen W (executable c) = inl process ->
         processes (snd out) !! k = Some process) /\
      (executable_exists W (executable c) = false \/
       (exists e, popen W (executable c) = inr e) ->
       processes (snd out) !! k = processes r !! k) /\
      (forall k', k' <> k -> processes (snd out) !! k' = processes r !! k') /\
      running (snd out) = running r.
Proof.
  intros out. split.
  { intros Hc. unfold out, start_service, bind, lookup_tech. by rewrite Hc. }
  intros c Hc _.
  destruct (start_service_exact technologies W k c r Hc) as (evs & Hrun & _).
  unfold out. rewrite Hrun. cbn [fst snd processes running].
  exists (start_succeeds W c). split; [reflexivity|].
  unfold start_succeeds, launched.
  destruct (executable_exists W (executable c)); cbn [andb].
  - destruct (popen W (executable c)) as [process|e].
    + split; [|split; [|split; [|split; [|reflexivity]]]].
      * rewrite andb_true_iff, Z.leb_le. split.
        -- intros [Hpos Halive]. eauto.
        -- intros (_ & Hpos & process' & [= <-] & Halive). auto.
      * intros process' _ [= <-]. apply lookup_insert_eq.
      * intros [[=]|(e & [=])].
      * intros k' Hne. by apply lookup_insert_ne.
    + split; [|split; [|split; [|split; [|reflexivity]]]].
      * split; [discriminate|]. intros (_ & _ & process & [=] & _).
      * intros process _ [=].
      * reflexivity.
      * reflexivity.
  - split; [|split; [|split; [|split; [|reflexivity]]]].
    + split; [discriminate|]. intros ([=] & _).
    + intros process [=].
    + reflexivity.
    + reflexivity.
Qed.

(** A start-up time of -1: the process is spawned and entered, the sleep
    raises, and the call answers [False]. *)
Lemma start_service_effect_witness :
  let technologies :=
    [("svc", {| name := "Service"; executable := "svc_demo"; port := 9000;
                health_endpoint := "/health"; startup_time := -1;
                dependencies := []; critical := false |})] in
  let out := start_service technologies good_world "svc" init_runner in
  fst out = Ok false /\
  processes (snd out) !! "svc" = Some sample_process /\
  error_lines (trace (snd out))
    = ["Failed to start Service: sleep length must be non-negative"].
Proof.
  intros technologies out.
  destruct (proj2 (start_service_effect technologies good_world "svc" init_runner)
              _ eq_refl ltac:(vm_compute; discriminate))
    as (ok & Hout & Hok & Hentry & _).
  fold out in Hout, Hentry. split; [|split].
  - rewrite Hout. f_equal. destruct ok; [|reflexivity].
    destruct (proj1 Hok eq_refl) as (_ & Hpos & _). cbn in Hpos. lia.
  - exact (Hentry sample_process eq_refl eq_refl).
  - vm_compute. reflexivity.
Defined.

(** ** Communication and performance probes *)

Lemma test_service_communication_exact technologies (W : World)
    tech1 tech2 r :
  let out := test_service_communication technologies W tech1 tech2 r in
  exists b evs,
    out = (Ok b, {| processes := processes r; running := running r;
                    clock := clock r; trace := trace r ++ evs |}) /\
    match assoc technologies tech1, assoc technologies tech2 with
    | Some c1, Some c2 =>
        communications evs = [(tech1, tech2)] /\
        (b = true <->
         exists text,
           communication_response W (port c1) (port c2) = Response 200 text)
    | _, _ =>
        communications evs = [] /\ b = false /\ length (error_lines evs) = 1%nat
    end.
Proof.
  intros out. unfold out, test_service_communication, bind, logger_error,
    emit, ret.
  destruct (assoc technologies tech1) as [c1|];
    [destruct (assoc technologies tech2) as [c2|]|].
  - cbn.
    destruct (communication_response W (port c1) (port c2))
      as [status text|e]; cbn.
    + eexists _, _. split; [reflexivity|]. split; [reflexivity|].
      destruct (Z.eqb_spec status 200) as [->|Hne].
      * split; eauto.
      * split; [discriminate|]. intros (text' & [= ? ?]). contradiction.
    + eexists _, _. split; [rewrite <- app_assoc; reflexivity|].
      split; [reflexivity|]. split; [discriminate|]. intros (? & [=]).
  - cbn. eexists _, _. split; [reflexivity|]. auto.
  - cbn. eexists _, _. split; [reflexivity|]. auto.
Qed.

(** X2. [test_service_communication] never raises: with an undeclared
    endpoint it sends nothing, logs the error and answers [False]. With
    both endpoints declared it sends one request and answers [True]
    exactly when the status is 200. It leaves the process table and the
    [running] flag alone. *)
Theorem test_service_communication_effect technologies (W : World)
    tech1 tech2 r :
  let out := test_service_communication technologies W tech1 tech2 r in
  exists b evs,
    out = (Ok b, {| processes := processes r; running := running r;
                    clock := clock r; trace := trace r ++ evs |}) /\
    match assoc technologies tech1, assoc technologies tech2 with
    | Some c1, Some c2 =>
        communications evs = [(tech1, tech2)] /\
        (b = true <->
         exists text,
           communication_response W (port c1) (port c2) = Response 200 text)
    | _, _ =>
        communications evs = [] /\ b = false /\ length (error_lines evs) = 1%nat
    end.
Proof. apply test_service_communication_exact. Qed.

(** X3. [run_performance_test] on a declared service sends one request
    and returns a dict. The dict is free of the key "error", which is what
    the caller counts as a pass, exactly when the status is 200 and the
    body is a JSON object that has no "error" key of its own; it then
    holds the key "measured_response_time". On an undeclared key the call
    raises [KeyError] before any request is sent. *)
Theorem run_performance_test_effect technologies (W : World) k r :
  let out := run_performance_test technologies W k r in
  match assoc technologies k with
  | Some c =>
      exists d,
        out = (Ok d, {| processes := processes r; running := running r;
                        clock := clock r;
                        trace := trace r ++ [EvPerformance k] |}) /\
        ("error" ∉ dom d <->
           exists text body,
             performance_response W (port c) = Response 200 text /\
             performance_json W (port c) = JsonDict body /\
             "error" ∉ dom body) /\
        ("error" ∉ dom d -> "measured_response_time" ∈ dom d)
  | None => out = (Raised (KeyError k), r)
  end.
Proof.
  intros out. unfold out, run_performance_test, bind, lookup_tech, emit, ret.
  destruct (assoc technologies k) as [c|]; [|reflexivity]. cbn.
  eexists. split; [reflexivity|]. unfold performance_verdict.
  destruct (performance_response W (port c)) as [status text|e].
  - destruct (Z.eqb_spec status 200) as [->|Hne].
    + destruct (performance_json W (port c)) as [body|e].
      * rewrite dom_insert_L. split.
        -- split.
           ++ intros Hd. exists text, body. repeat split. set_solver.
           ++ intros (text' & body' & _ & [= <-] & Hbody).
              rewrite elem_of_union, elem_of_singleton.
              intros [Heq|Hin]; [discriminate|contradiction].
        -- intros _. set_solver.
      * rewrite dom_singleton_L. split.
        -- split; [set_solver|]. intros (? & ? & _ & [=] & _).
        -- set_solver.
    + rewrite dom_singleton_L. split.
      * split; [set_solver|]. intros (? & ? & [= ? ?] & _). contradiction.
      * set_solver.
  - rewrite dom_singleton_L. split.
    + split; [set_solver|]. intros (? & ? & [=] & _).
    + set_solver.
Qed.

(** ** The probing loop, event by event *)

Section Probing.

Variable technologies : list (string * TechnologyConfig).
Variable W : World.
Variable E : Prop.
Hypothesis stop_order_declared : Forall (declared technologies E) stop_order.

(** The events a phase may emit: [P] holds of every teardown, log and
    signal event. *)
Variable P : Event -> Prop.
Hypothesis P_handler : forall e, handler_event e -> P e.

Lemma checkpoint_events :
  triple E P (fun _ => True) (checkpoint technologies W).
Proof.
  eapply triple_events; [by apply checkpoint_triple|exact P_handler].
Qed.

Lemma check_service_health_value k :
  declared technologies E k -> P (EvHealth k) ->
  triple E P (fun hm => fst hm = healthy technologies W k)
    (check_service_health technologies W k).
Proof.
  intros Hk HP. unfold check_service_health.
  eapply triple_bind; [apply lookup_tech_triple; exact Hk|]. intros c Hc.
  eapply triple_bind; [apply triple_emit with (Q := fun _ => True); auto|].
  intros _ _. apply triple_ret. unfold healthy. cbn beta in Hc. by rewrite Hc.
Qed.

Lemma run_performance_test_events k :
  declared technologies E k -> P (EvPerformance k) ->
  triple E P (fun _ => True) (run_performance_test technologies W k).
Proof.
  intros Hk HP. unfold run_performance_test.
  eapply triple_bind; [apply lookup_tech_triple; exact Hk|]. intros c _.
  eapply triple_bind; [apply triple_emit with (Q := fun _ => True); auto|].
  intros _ _. by apply triple_ret.
Qed.

Lemma run_stress_test_events k :
  declared technologies E k -> P (EvStress k) ->
  triple E P (fun _ => True) (run_stress_test technologies W k).
Proof.
  intros Hk HP. unfold run_stress_test.
  eapply triple_bind; [apply lookup_tech_triple; exact Hk|]. intros c _.
  eapply triple_bind; [apply triple_emit with (Q := fun _ => True); auto|].
  intros _ _. by apply triple_ret.
Qed.

Lemma test_body_accounted k res :
  declared technologies E k ->
  P (EvHealth k) ->
  (healthy technologies W k = true -> P (EvPerformance k) /\ P (EvStress k)) ->
  triple E P (accounted technologies W k res)
    (test_body technologies W k res).
Proof.
  intros Hk Hhealth Hprobes. unfold test_body.
  eapply triple_bind; [apply lookup_tech_triple; exact Hk|]. intros c _.
  eapply triple_bind; [by apply check_service_health_value|].
  intros [h msg] Hh. cbn [fst snd] in *. subst h.
  eapply triple_bind; [apply checkpoint_events|]. intros _ _.
  unfold accounted.
  destruct (healthy technologies W k) eqn:Hhealthy.
  - destruct (Hprobes eq_refl) as [Hperf Hstress].
    eapply triple_bind with
      (Q1 := fun pr =>
         is_Some (fst pr) /\
         total_tests (snd pr) = total_tests res + 2 /\
         passed_tests (snd pr) + failed_tests (snd pr)
           = passed_tests res + failed_tests res + 2 /\
         passed_tests res <= passed_tests (snd pr) /\
         failed_tests res <= failed_tests (snd pr) /\
         technologies_results (snd pr) = technologies_results res /\
         communication_tests (snd pr) = communication_tests res).
    { eapply triple_bind; [by apply run_performance_test_events|].
      intros perf _.
      eapply triple_bind; [apply checkpoint_events|]. intros _ _.
      apply triple_ret. cbn [fst snd]. split; [eauto|].
      destruct (bool_decide _); cbn; repeat split; lia. }
    intros [perf res2] (Hperf' & Ht2 & Hs2 & Hp2 & Hf2 & Htech2 & Hcomm2).
    cbn [fst snd] in *.
    eapply triple_bind with
      (Q1 := fun sr =>
         is_Some (fst sr) /\
         total_tests (snd sr) = total_tests res + 3 /\
         passed_tests (snd sr) + failed_tests (snd sr)
           = passed_tests res + failed_tests res + 3 /\
         passed_tests res <= passed_tests (snd sr) /\
         failed_tests res <= failed_tests (snd sr) /\
         technologies_results (snd sr) = technologies_results res /\
         communication_tests (snd sr) = communication_tests res).
    { eapply triple_bind; [by apply run_stress_test_events|].
      intros st _.
      eapply triple_bind; [apply checkpoint_events|]. intros _ _.
      apply triple_ret. cbn [fst snd]. split; [eauto|].
      destruct (stress_passed st); cbn; repeat split; try lia;
        congruence. }
    intros [st res3] (Hst' & Ht3 & Hs3 & Hp3 & Hf3 & Htech3 & Hcomm3).
    cbn [fst snd] in *.
    eapply triple_bind; [apply checkpoint_events|]. intros _ _.
    apply triple_ret. cbn.
    repeat (split; [first [lia|congruence|discriminate]|]).
    split; [|split; [|exact Hcomm3]].
    + eexists. rewrite lookup_insert_eq. split; [reflexivity|]. cbn.
      repeat split; auto.
    + intros k' Hne. rewrite lookup_insert_ne by congruence. by rewrite Htech3.
  - eapply triple_bind with (Q1 := fun pr => pr = (None, incr_failed (incr_total res)));
      [by apply triple_ret|].
    intros pr ->. cbn [fst snd].
    eapply triple_bind with (Q1 := fun sr => sr = (None, incr_failed (incr_total res)));
      [by apply triple_ret|].
    intros sr ->. cbn [fst snd].
    eapply triple_bind; [apply checkpoint_events|]. intros _ _.
    apply triple_ret. cbn.
    repeat (split; [first [lia|congruence|reflexivity]|]).
    split; [|split; [|reflexivity]].
    + eexists. rewrite lookup_insert_eq. split; [reflexivity|]. cbn.
      split; [reflexivity|].
      split; (split; [intros [? [=]]|discriminate]).
    + intros k' Hne. by rewrite lookup_insert_ne by congruence.
Qed.

Lemma test_loop_events l : forall res,
  Forall (declared technologies E) l ->
  (forall k, k ∈ l -> P (EvHealth k)) ->
  (forall k, k ∈ l -> healthy technologies W k = true ->
             P (EvPerformance k) /\ P (EvStress k)) ->
  triple E P (fun _ => True) (test_loop technologies W l res).
Proof.
  induction l as [|k rest IH]; intros res Hl Hhealth Hprobes; cbn [test_loop].
  - by apply triple_ret.
  - apply Forall_cons in Hl as [Hk Hrest].
    eapply triple_bind; [apply triple_get_running; exact (fun _ => I)|].
    intros running _. destruct running; cbn [negb]; [|by apply triple_ret].
    eapply triple_bind.
    { apply test_body_accounted; [exact Hk| |].
      - apply Hhealth, list_elem_of_here.
      - apply Hprobes, list_elem_of_here. }
    intros res' _. apply IH; [exact Hrest| |].
    + intros k' Hk'. apply Hhealth. by right.
    + intros k' Hk'. apply Hprobes. by right.
Qed.

Lemma comm_loop_events pairs : forall started res,
  (forall k1 k2, k1 ∈ started -> k2 ∈ started -> P (EvCommunication k1 k2)) ->
  triple E P (fun _ => True)
    (comm_loop technologies W pairs started res).
Proof.
  induction pairs as [|[tech1 tech2] rest IH]; intros started res Hcomm;
    cbn [comm_loop].
  - by apply triple_ret.
  - eapply triple_bind; [apply triple_get_running; exact (fun _ => I)|].
    intros running _. destruct running; cbn [negb]; [|by apply triple_ret].
    eapply triple_bind with (Q1 := fun _ => True); [|intros res' _; by apply IH].
    unfold comm_body.
    destruct (bool_decide_reflect (tech1 ∈ started)) as [H1|H1]; cbn [andb];
      [destruct (bool_decide_reflect (tech2 ∈ started)) as [H2|H2]|];
      [|by apply triple_ret..].
    eapply triple_bind with (Q1 := fun _ => True).
    { unfold test_service_communication, logger_error.
      destruct (assoc technologies tech1) as [c1|];
        [destruct (assoc technologies tech2) as [c2|]|].
      - eapply triple_bind;
          [apply triple_emit with (Q := fun _ => True); auto|].
        intros _ _. destruct (communication_response W (port c1) (port c2)).
        + by apply triple_ret.
        + eapply triple_bind;
            [apply triple_emit with (Q := fun _ => True);
             [by apply P_handler|auto]|].
          intros _ _. by apply triple_ret.
      - eapply triple_bind;
          [apply triple_emit with (Q := fun _ => True);
           [by apply P_handler|auto]|].
        intros _ _. by apply triple_ret.
      - eapply triple_bind;
          [apply triple_emit with (Q := fun _ => True);
           [by apply P_handler|auto]|].
        intros _ _. by apply triple_ret. }
    intros b _.
    eapply triple_bind; [apply checkpoint_events|]. intros _ _.
    by apply triple_ret.
Qed.

End Probing.

(** ** Rules for state assertions *)

Section StateLogic.

Context {A B : Type}.

Lemma hoare_ret (I : Runner -> Prop) (Q : A -> Runner -> Prop) X (a : A) :
  (forall r, I r -> Q a r) -> hoare I (ret a) Q X.
Proof. intros HQ r Hr. cbn. auto. Qed.

Lemma hoare_bind (I : Runner -> Prop) (Q1 : A -> Runner -> Prop)
    (Q : B -> Runner -> Prop) X (m : M A) (k : A -> M B) :
  hoare I m Q1 X ->
  (forall a, hoare (Q1 a) (k a) Q X) ->
  hoare I (bind m k) Q X.
Proof.
  intros Hm Hk r Hr. specialize (Hm r Hr). unfold bind.
  destruct (m r) as [[a|e] r1]; cbn [fst snd] in *; [|exact Hm].
  exact (Hk a r1 Hm).
Qed.

Lemma hoare_conseq (I I' : Runner -> Prop) (Q Q' : A -> Runner -> Prop)
    (X X' : Runner -> Prop) (m : M A) :
  hoare I m Q X ->
  (forall r, I' r -> I r) ->
  (forall a r, Q a r -> Q' a r) ->
  (forall r, X r -> X' r) ->
  hoare I' m Q' X'.
Proof.
  intros Hm HI HQ HX r Hr. specialize (Hm r (HI r Hr)).
  destruct (fst (m r)); auto.
Qed.

Lemma hoare_and (I1 I2 : Runner -> Prop) (Q1 Q2 : A -> Runner -> Prop)
    (X1 X2 : Runner -> Prop) (m : M A) :
  hoare I1 m Q1 X1 -> hoare I2 m Q2 X2 ->
  hoare (fun r => I1 r /\ I2 r) m (fun a r => Q1 a r /\ Q2 a r)
        (fun r => X1 r /\ X2 r).
Proof.
  intros H1 H2 r [Hr1 Hr2]. specialize (H1 r Hr1). specialize (H2 r Hr2).
  destruct (fst (m r)); auto.
Qed.

(** What [triple] says about the value, as a state assertion. *)
Lemma hoare_of_triple E P (Q : A -> Prop) (m : M A) :
  triple E P Q m ->
  hoare (fun _ => True) m (fun a _ => Q a) (fun _ => E).
Proof.
  intros Hm r _. destruct (Hm r) as (_ & _ & _ & Hout).
  destruct (fst (m r)); auto.
Qed.

(** What [triple] says about the events, for a projection of the trace
    that ignores them. *)
Lemma hoare_projection {C} E P (Q : A -> Prop) (m : M A)
    (g : Event -> option C) (xs : list C) :
  triple E P Q m ->
  (forall e, P e -> g e = None) ->
  hoare (fun r => omap g (trace r) = xs) m
        (fun _ r => omap g (trace r) = xs)
        (fun r => omap g (trace r) = xs).
Proof.
  intros Hm Hg r Hr. destruct (Hm r) as (evs & Htr & Hevs & _).
  assert (Hnone : omap g evs = []).
  { apply omap_none. intros e He. rewrite Forall_forall in Hevs. auto. }
  assert (Hkeep : omap g (trace (snd (m r))) = xs)
    by (rewrite Htr, omap_app, Hnone, app_nil_r; exact Hr).
  destruct (fst (m r)); exact Hkeep.
Qed.

Lemma hoare_keeps {F} (f : Runner -> F) (J : F -> Prop) (m : M A) :
  keeps f m ->
  hoare (fun r => J (f r)) m (fun _ r => J (f r)) (fun r => J (f r)).
Proof.
  intros Hm r Hr. rewrite <- (Hm r) in Hr. destruct (fst (m r)); exact Hr.
Qed.

Lemma keeps_ret {F} (f : Runner -> F) (a : A) : keeps f (ret a).
Proof. intros r. reflexivity. Qed.

Lemma keeps_bind {F} (f : Runner -> F) (m : M A) (k : A -> M B) :
  keeps f m -> (forall a, keeps f (k a)) -> keeps f (bind m k).
Proof.
  intros Hm Hk r. unfold bind. specialize (Hm r).
  destruct (m r) as [[a|e] r1]; cbn [fst snd] in *; [|exact Hm].
  by rewrite (Hk a r1).
Qed.

End StateLogic.

(** ** What touches the runner's own state *)

Section Frames.

Variable technologies : list (string * TechnologyConfig).
Variable W : World.

Lemma keeps_lookup_tech {F} (f : Runner -> F) k :
  keeps f (lookup_tech technologies k).
Proof.
  intros r. unfold lookup_tech. by destruct (assoc technologies k).
Qed.

Lemma keeps_emit e : keeps core (emit e).
Proof. intros r. reflexivity. Qed.

Lemma check_service_health_keeps k :
  keeps core (check_service_health technologies W k).
Proof.
  unfold check_service_health.
  apply keeps_bind; [apply keeps_lookup_tech|]. intros c.
  apply keeps_bind; [apply keeps_emit|]. intros _. apply keeps_ret.
Qed.

Lemma run_performance_test_keeps k :
  keeps core (run_performance_test technologies W k).
Proof.
  unfold run_performance_test.
  apply keeps_bind; [apply keeps_lookup_tech|]. intros c.
  apply keeps_bind; [apply keeps_emit|]. intros _. apply keeps_ret.
Qed.

Lemma run_stress_test_keeps k :
  keeps core (run_stress_test technologies W k).
Proof.
  unfold run_stress_test.
  apply keeps_bind; [apply keeps_lookup_tech|]. intros c.
  apply keeps_bind; [apply keeps_emit|]. intros _. apply keeps_ret.
Qed.

Lemma test_service_communication_keeps tech1 tech2 :
  keeps core (test_service_communication technologies W tech1 tech2).
Proof.
  intros r.
  destruct (test_service_communication_exact technologies W tech1 tech2 r)
    as (b & evs & Hout & _).
  by rewrite Hout.
Qed.

Lemma start_service_keeps_flag k :
  keeps (fun r => (running r, clock r)) (start_service technologies W k).
Proof.
  intros r. destruct (assoc technologies k) as [c|] eqn:Hc.
  - destruct (start_service_exact technologies W k c r Hc) as (evs & Hout & _).
    by rewrite Hout.
  - unfold start_service, bind, lookup_tech. by rewrite Hc.
Qed.

Lemma stop_service_keeps_flag k :
  keeps (fun r => (running r, clock r)) (stop_service technologies k).
Proof.
  intros r. unfold stop_service, bind, get_processes, lookup_tech. cbn.
  destruct (processes r !! k) as [process|]; [|reflexivity].
  destruct (assoc technologies k) as [c|]; [|reflexivity]. cbn.
  by destruct (on_stop process).
Qed.

Lemma stop_loop_keeps_flag l :
  keeps (fun r => (running r, clock r)) (stop_loop technologies l).
Proof.
  induction l as [|k rest IH]; cbn [stop_loop]; [apply keeps_ret|].
  apply keeps_bind; [intros r; reflexivity|]. intros ps.
  destruct (ps !! k); [|exact IH].
  apply keeps_bind; [apply stop_service_keeps_flag|]. intros _. exact IH.
Qed.

End Frames.

(** ** No process is left behind *)

Section Reaping.

Variable W : World.
Hypothesis W_quiet : quiet_world W.

Lemma start_order_stop_order k : k ∈ start_order -> k ∈ stop_order.
Proof.
  intros Hk.
  assert (H : Forall (fun k => k ∈ stop_order) start_order)
    by (apply (bool_decide_unpack _); vm_compute; exact I).
  rewrite Forall_forall in H. auto.
Qed.

Lemma reapable_empty r : processes r = ∅ -> reapable r.
Proof. intros Hr k process. rewrite Hr, lookup_empty. discriminate. Qed.

Lemma stop_all_services_reaps :
  hoare reapable (stop_all_services default_technologies)
        (fun _ r => processes r = ∅) (fun _ => False).
Proof.
  intros r Hr.
  destruct (stop_loop_exact default_technologies stop_order r stop_order_NoDup
              stop_order_in_registry) as (evs & Hout & _ & Hps & _).
  fold (stop_all_services default_technologies) in *. rewrite Hout.
  apply map_eq. intros k. rewrite Hps, lookup_empty.
  destruct (processes r !! k) as [process|] eqn:Hk.
  - destruct (Hr k process Hk) as [Hin Hquiet].
    rewrite bool_decide_eq_true_2 by exact Hin.
    cbn. by rewrite Hquiet.
  - by destruct (bool_decide _).
Qed.

Lemma keeps_core_reapable {A} (m : M A) :
  keeps core m -> hoare reapable m (fun _ => reapable) reapable.
Proof.
  intros Hm r Hr.
  assert (Hps : processes (snd (m r)) = processes r)
    by (pose proof (Hm r) as H; unfold core in H; congruence).
  assert (Hkeep : reapable (snd (m r)))
    by (intros k process; rewrite Hps; apply Hr).
  destruct (fst (m r)); exact Hkeep.
Qed.

Lemma emit_reapable e :
  hoare reapable (emit e) (fun _ => reapable) (fun _ => False).
Proof. intros r Hr. exact Hr. Qed.

Lemma set_running_reapable b :
  hoare reapable (set_running b) (fun _ => reapable) (fun _ => False).
Proof. intros r Hr. exact Hr. Qed.

Lemma signal_handler_reaps :
  hoare reapable (_signal_handler default_technologies)
        (fun _ r => processes r = ∅) (fun _ => False).
Proof.
  unfold _signal_handler.
  eapply hoare_bind; [apply emit_reapable|]. intros ?.
  eapply hoare_bind; [apply set_running_reapable|]. intros ?.
  apply stop_all_services_reaps.
Qed.

Lemma checkpoint_reapable :
  hoare reapable (checkpoint default_technologies W)
        (fun _ => reapable) (fun _ => False).
Proof.
  intros r Hr. unfold checkpoint.
  destruct (signal_at W (clock r)); [|exact Hr].
  set (r' := {| processes := processes r; running := running r;
                clock := S (clock r); trace := trace r |}).
  pose proof (signal_handler_reaps r' Hr) as Hstop.
  destruct (fst (_signal_handler default_technologies r')); [|contradiction].
  by apply reapable_empty.
Qed.

Lemma start_service_reapable k :
  k ∈ stop_order ->
  hoare reapable (start_service default_technologies W k) (fun _ => reapable) (fun _ => False).
Proof.
  intros Hk r Hr.
  destruct (stop_order_in_registry k Hk) as [c Hc].
  destruct (start_service_exact default_technologies W k c r Hc) as (evs & Hout & _).
  rewrite Hout. cbn [fst snd].
  intros k' process. cbn [processes].
  destruct (launched W c) as [p|] eqn:Hl; [|apply Hr].
  destruct (decide (k' = k)) as [->|Hne].
  - rewrite lookup_insert_eq. intros [= <-]. split; [exact Hk|].
    unfold launched in Hl.
    destruct (executable_exists W (executable c)); [|discriminate].
    destruct (popen W (executable c)) as [p'|] eqn:Hp; [|discriminate].
    injection Hl as <-. eapply W_quiet, Hp.
  - rewrite lookup_insert_ne by congruence. apply Hr.
Qed.

Lemma lookup_tech_reapable k :
  k ∈ stop_order ->
  hoare reapable (lookup_tech default_technologies k) (fun _ => reapable) (fun _ => False).
Proof.
  intros Hk r Hr. destruct (stop_order_in_registry k Hk) as [c Hc].
  unfold lookup_tech. rewrite Hc. exact Hr.
Qed.

(** A probe on a declared service: it keeps the state, and raises nothing. *)
Lemma probe_reapable {A} (m : M A) :
  keeps core m -> triple False (fun _ => True) (fun _ => True) m ->
  hoare reapable m (fun _ => reapable) (fun _ => False).
Proof.
  intros Hkeep Hm.
  eapply hoare_conseq;
    [exact (hoare_and _ _ _ _ _ _ _ (keeps_core_reapable m Hkeep)
              (hoare_of_triple _ _ _ _ Hm))| | |]; cbn; tauto.
Qed.

Lemma start_loop_reapable l : forall started,
  (forall k, k ∈ l -> k ∈ stop_order) ->
  hoare reapable (start_loop default_technologies W l started)
        (fun o r => match o with
                    | Some _ => reapable r
                    | None => processes r = ∅
                    end)
        (fun _ => False).
Proof.
  induction l as [|k rest IH]; intros started Hl; cbn [start_loop].
  - by apply hoare_ret.
  - assert (Hk : k ∈ stop_order) by apply Hl, list_elem_of_here.
    assert (Hrest : forall k', k' ∈ rest -> k' ∈ stop_order)
      by (intros k' Hk'; apply Hl; by right).
    eapply hoare_bind; [by apply start_service_reapable|]. intros ok.
    eapply hoare_bind; [apply checkpoint_reapable|]. intros ?.
    destruct ok; [by apply IH|].
    eapply hoare_bind; [by apply lookup_tech_reapable|]. intros c.
    eapply hoare_bind; [apply emit_reapable|]. intros ?.
    destruct (critical c); [|by apply IH].
    eapply hoare_bind; [apply emit_reapable|]. intros ?.
    eapply hoare_bind; [apply stop_all_services_reaps|]. intros ?.
    by apply hoare_ret.
Qed.

Lemma test_body_reapable k res :
  k ∈ stop_order ->
  hoare reapable (test_body default_technologies W k res) (fun _ => reapable) (fun _ => False).
Proof.
  intros Hk. unfold test_body.
  assert (Hdecl : declared default_technologies False k).
  { unfold declared. destruct (stop_order_in_registry k Hk) as [c ->].
    discriminate. }
  eapply hoare_bind; [by apply lookup_tech_reapable|]. intros c.
  eapply hoare_bind.
  { apply probe_reapable; [apply check_service_health_keeps|].
    eapply triple_weaken;
      [by apply (check_service_health_triple default_technologies W False)|auto..]. }
  intros [healthy msg]. cbn [fst snd].
  eapply hoare_bind; [apply checkpoint_reapable|]. intros ?.
  eapply hoare_bind with (Q1 := fun _ => reapable).
  { destruct healthy; [|by apply hoare_ret].
    eapply hoare_bind.
    { apply probe_reapable; [apply run_performance_test_keeps|].
      eapply triple_weaken;
        [by apply (run_performance_test_triple default_technologies W False)|auto..]. }
    intros perf.
    eapply hoare_bind; [apply checkpoint_reapable|]. intros ?.
    by apply hoare_ret. }
  intros pr.
  eapply hoare_bind with (Q1 := fun _ => reapable).
  { destruct healthy; [|by apply hoare_ret].
    eapply hoare_bind.
    { apply probe_reapable; [apply run_stress_test_keeps|].
      eapply triple_weaken;
        [by apply (run_stress_test_triple default_technologies W False)|auto..]. }
    intros st.
    eapply hoare_bind; [apply checkpoint_reapable|]. intros ?.
    by apply hoare_ret. }
  intros sr.
  eapply hoare_bind; [apply checkpoint_reapable|]. intros ?.
  by apply hoare_ret.
Qed.

Lemma get_running_reapable :
  hoare reapable get_running (fun _ => reapable) (fun _ => False).
Proof. intros r Hr. exact Hr. Qed.

Lemma test_loop_reapable l : forall res,
  (forall k, k ∈ l -> k ∈ stop_order) ->
  hoare reapable (test_loop default_technologies W l res) (fun _ => reapable) (fun _ => False).
Proof.
  induction l as [|k rest IH]; intros res Hl; cbn [test_loop].
  - by apply hoare_ret.
  - eapply hoare_bind; [apply get_running_reapable|]. intros running.
    destruct running; cbn [negb]; [|by apply hoare_ret].
    eapply hoare_bind; [apply test_body_reapable, Hl, list_elem_of_here|].
    intros res'. apply IH. intros k' Hk'. apply Hl. by right.
Qed.

Lemma comm_loop_reapable pairs : forall started res,
  hoare reapable (comm_loop default_technologies W pairs started res)
        (fun _ => reapable) (fun _ => False).
Proof.
  induction pairs as [|[tech1 tech2] rest IH]; intros started res;
    cbn [comm_loop].
  - by apply hoare_ret.
  - eapply hoare_bind; [apply get_running_reapable|]. intros running.
    destruct running; cbn [negb]; [|by apply hoare_ret].
    eapply hoare_bind with (Q1 := fun _ => reapable); [|intros res'; apply IH].
    unfold comm_body. destruct (_ && _); [|by apply hoare_ret].
    eapply hoare_bind with (Q1 := fun _ => reapable).
    { intros r Hr.
      destruct (test_service_communication_exact default_technologies W
                  tech1 tech2 r) as (b & evs & Hout & _).
      rewrite Hout. exact Hr. }
    intros b.
    eapply hoare_bind; [apply checkpoint_reapable|]. intros ?.
    by apply hoare_ret.
Qed.

End Reaping.

Lemma hoare_with_value {A} (I : Runner -> Prop) (J : A -> Runner -> Prop)
    (X : Runner -> Prop) P (Q : A -> Prop) (m : M A) :
  hoare I m J X ->
  triple False P Q m ->
  hoare I m (fun a r => J a r /\ Q a) (fun _ => False).
Proof.
  intros Hstate Hm r Hr. specialize (Hstate r Hr).
  destruct (Hm r) as (_ & _ & _ & Hout).
  destruct (fst (m r)); [auto|contradiction].
Qed.

Lemma hoare_pure {A} (phi : Prop) (I : Runner -> Prop) (m : M A) Q X :
  (phi -> hoare I m Q X) -> hoare (fun r => I r /\ phi) m Q X.
Proof. intros Hm r [Hr Hphi]. exact (Hm Hphi r Hr). Qed.

Lemma started_in_start_order technologies W k :
  k ∈ started_in technologies W start_order -> k ∈ start_order.
Proof. unfold started_in. rewrite list_elem_of_filter. tauto. Qed.

Lemma run_integration_tests_reaps (W : World) :
  quiet_world W ->
  hoare reapable (run_integration_tests default_technologies W)
        (fun _ r => processes r = ∅) (fun _ => False).
Proof.
  intros Hquiet. unfold run_integration_tests.
  eapply hoare_bind.
  { eapply hoare_conseq;
      [exact (hoare_and _ _ _ _ _ _ _
                (start_loop_reapable W Hquiet start_order []
                   start_order_stop_order)
                (hoare_of_triple _ _ _ _
                   (start_loop_triple default_technologies W False
                      default_stop_order_declared start_order []
                      default_start_order_declared)))
      | | |]; cbn beta.
    - intros r Hr. split; [exact Hr|exact I].
    - intros o r H. exact H.
    - tauto. }
  intros o. apply hoare_pure. intros ->.
  destruct (existsb _ start_order); [by apply hoare_ret|].
  eapply hoare_bind; [by apply checkpoint_reapable|]. intros ?.
  eapply hoare_bind.
  { apply test_loop_reapable. cbn [app].
    intros k Hk%started_in_start_order. by apply start_order_stop_order. }
  intros res1.
  eapply hoare_bind; [by apply comm_loop_reapable|]. intros res2.
  eapply hoare_bind; [apply stop_all_services_reaps|]. intros ?.
  by apply hoare_ret.
Qed.

(** [main], step by step. *)
Lemma main_steps technologies (W : World) :
  let failed msg r :=
    (1, snd ((logger_error ("Unexpected error: " ++ msg)%string;;
              stop_all_services technologies) r)) in
  main technologies W =
    match run_integration_tests technologies W init_runner with
    | (Ok results, r) =>
        match save_results_raises W with
        | Some e => failed e r
        | None =>
            match generate_report results with
            | Raised e => failed (str_exn e) r
            | Ok _ =>
                match save_report_raises W with
                | Some e => failed e r
                | None =>
                    match print_raises W with
                    | Some e => failed e r
                    | None =>
                        (if default false (overall_passed results)
                         then 0 else 1, r)
                    end
                end
            end
        end
    | (Raised e, r) => failed (str_exn e) r
    end.
Proof.
  intros failed. unfold main, main_body, save_results, save_report,
    print_summary, io.
  unfold bind at 1.
  destruct (run_integration_tests technologies W init_runner)
    as [[results|e] r]; [|reflexivity].
  unfold bind at 1. destruct (save_results_raises W); [reflexivity|].
  cbn [ret]. unfold bind at 1.
  destruct (generate_report results) as [[]|e]; [|reflexivity].
  unfold bind at 1. destruct (save_report_raises W); [reflexivity|].
  cbn [ret]. unfold bind at 1. destruct (print_raises W); reflexivity.
Qed.


Lemma good_world_quiet : quiet_world good_world.
Proof. intros exe process [= <-]. reflexivity. Qed.


(** ** Which services are probed *)

Lemma run_integration_tests_probes (W : World) :
  triple False (run_probe_event default_technologies W) (fun _ => True)
    (run_integration_tests default_technologies W).
Proof.
  assert (Hhandler : forall e, handler_event e ->
                       run_probe_event default_technologies W e)
    by (intros e; destruct e; cbn; tauto).
  unfold run_integration_tests.
  eapply triple_bind.
  { eapply triple_events;
      [exact (start_loop_triple default_technologies W False
                default_stop_order_declared start_order []
                default_start_order_declared)|].
    intros e. destruct e; cbn [start_phase_event run_probe_event]; tauto. }
  intros o ->. cbn [app].
  destruct (existsb _ start_order); [by apply triple_ret|].
  eapply triple_bind;
    [by apply checkpoint_events, Hhandler; apply default_stop_order_declared|].
  intros _ _.
  eapply triple_bind.
  { apply (test_loop_events default_technologies W False
             default_stop_order_declared _ Hhandler).
    - apply started_in_declared, default_start_order_declared.
    - intros k Hk. cbn. unfold started_in in Hk.
      apply list_elem_of_filter in Hk. tauto.
    - intros k Hk Hh. cbn. unfold started_in in Hk.
      apply list_elem_of_filter in Hk. tauto. }
  intros res1 _.
  eapply triple_bind.
  { by apply (comm_loop_events default_technologies W False
                default_stop_order_declared _ Hhandler). }
  intros res2 _.
  eapply triple_bind.
  { eapply triple_events;
      [apply stop_all_services_triple, default_stop_order_declared|].
    intros e He. apply Hhandler, stop_event_handler, He. }
  intros _ _. by apply triple_ret.
Qed.

(** X8. In every run on the shipped registry a health check is issued
    only for a service whose start succeeded, and a performance or stress
    probe only for such a service whose health check passes; a service
    that failed to start, or that is unhealthy, is never load-tested. *)
Theorem probes_are_gated (W : World) k :
  let tr := trace (snd (run_integration_tests default_technologies W init_runner)) in
  (EvHealth k ∈ tr -> start_ok default_technologies W k = true) /\
  (EvPerformance k ∈ tr ->
   start_ok default_technologies W k = true /\
   healthy default_technologies W k = true) /\
  (EvStress k ∈ tr ->
   start_ok default_technologies W k = true /\
   healthy default_technologies W k = true).
Proof.
  intros tr.
  destruct (run_integration_tests_probes W init_runner)
    as (evs & Htr & Hevs & _).
  cbn [trace init_runner app] in Htr. fold tr in Htr. rewrite <- Htr in Hevs.
  rewrite Forall_forall in Hevs.
  split; [|split]; intros Hin; apply (Hevs _ Hin).
Qed.

(** ** One iteration of the per-technology loop *)

(** X4. One iteration of the per-technology loop on a service of the
    shipped registry always returns. For an unhealthy service it counts
    exactly one check, a failed one, and records a health entry with no
    performance and no stress result; for a healthy service it counts
    exactly three checks and records all three results. Either way the
    counters never decrease, the entries of the other services and the
    communication results are untouched. *)
Theorem test_body_accounting (W : World) k res r :
  k ∈ start_order ->
  exists res',
    fst (test_body default_technologies W k res r) = Ok res' /\
    total_tests res'
      = total_tests res + (if healthy default_technologies W k then 3 else 1) /\
    passed_tests res' + failed_tests res'
      = passed_tests res + failed_tests res
        + (if healthy default_technologies W k then 3 else 1) /\
    passed_tests res <= passed_tests res' /\
    failed_tests res <= failed_tests res' /\
    (healthy default_technologies W k = false ->
     passed_tests res' = passed_tests res) /\
    (exists t,
       technologies_results res' !! k = Some t /\
       fst (health_check t) = healthy default_technologies W k /\
       (is_Some (performance t) <-> healthy default_technologies W k = true) /\
       (is_Some (stress t) <-> healthy default_technologies W k = true)) /\
    (forall k', k' <> k ->
       technologies_results res' !! k' = technologies_results res !! k') /\
    communication_tests res' = communication_tests res.
Proof.
  intros Hk.
  assert (Hdecl : declared default_technologies False k).
  { pose proof default_start_order_declared as H.
    rewrite Forall_forall in H. auto. }
  destruct (test_body_accounted default_technologies W False
              default_stop_order_declared (fun _ => True) (fun _ _ => I)
              k res Hdecl I (fun _ => conj I I) r) as (_ & _ & _ & Hout).
  destruct (fst (test_body default_technologies W k res r)) as [res'|];
    [|contradiction].
  exists res'. split; [reflexivity|exact Hout].
Qed.

Lemma test_body_accounting_witness :
  exists res',
    fst (test_body default_technologies
           (with_health 8082 (Response 500 "") good_world) "neuro-fcc"
           initial_results init_runner) = Ok res' /\
    total_tests res' = 1 /\ passed_tests res' = 0.
Proof.
  destruct (test_body_accounting
              (with_health 8082 (Response 500 "") good_world) "neuro-fcc"
              initial_results init_runner)
    as (res' & Hrun & Htotal & _ & _ & _ & Hpassed & _).
  - do 2 apply list_elem_of_further. apply list_elem_of_here.
  - exists res'. split; [exact Hrun|]. split.
    + rewrite Htotal. reflexivity.
    + rewrite Hpassed; reflexivity.
Defined.

(** ** The verdict and the exit status *)

Lemma threshold_exact (p t : Z) :
  0 <= p <= t -> 0 < t <= 34 ->
  PrimFloat.leb 90 (percentage p t) = (9 * t <=? 10 * p).
Proof.
  intros Hp Ht.
  assert (Htab :
    forallb (fun t =>
      forallb (fun p =>
        Bool.eqb (PrimFloat.leb 90 (percentage (Z.of_nat p) (Z.of_nat t)))
                 (9 * Z.of_nat t <=? 10 * Z.of_nat p))
      (seq 0 (S t))) (seq 1 34) = true) by (vm_compute; reflexivity).
  rewrite forallb_forall in Htab.
  specialize (Htab (Z.to_nat t)). rewrite forallb_forall in Htab.
  specialize (fun H => Htab H (Z.to_nat p)).
  rewrite !Z2Nat.id in Htab by lia.
  apply Bool.eqb_prop, Htab; apply in_seq; lia.
Qed.

(** X5. The verdict and the exit status of [main], in exact arithmetic.
    When the run is not cut short by a critical start failure,
    [overall_passed] is true exactly when at least one check was made and
    10 * passed_tests >= 9 * total_tests (the binary64 computation of the
    rate never moves the 90 % threshold). [main] exits with 0 exactly when
    the run was not cut short, the verdict is a pass, and [save_results],
    [save_report] and the printing of the summary all went through; in
    every other case it exits with 1: an exception of one of these steps
    turns a passing verdict into status 1. *)
Theorem verdict_and_exit_status (W : World) :
  exists res,
    fst (run_integration_tests default_technologies W init_runner) = Ok res /\
    let passes := (0 <? total_tests res)
                  && (9 * total_tests res <=? 10 * passed_tests res) in
    (aborts default_technologies W = false ->
     overall_passed res = Some passes) /\
    (fst (main default_technologies W) = 0 <->
       aborts default_technologies W = false /\ passes = true /\
       save_results_raises W = None /\ save_report_raises W = None /\
       print_raises W = None) /\
    (fst (main default_technologies W) <> 0 ->
     fst (main default_technologies W) = 1).
Proof.
  destruct (run_default W) as (res & Hrun & _ & Hres).
  exists res. split; [exact Hrun|]. cbv zeta. rewrite main_steps.
  destruct (run_integration_tests default_technologies W init_runner)
    as [out r]. cbn [fst] in Hrun. subst out.
  destruct (aborts default_technologies W).
  - subst res. split; [discriminate|].
    destruct (save_results_raises W); cbn [fst generate_report initial_results
                                            success_rate];
      (split; [split; [discriminate|intros ([=] & _)]|reflexivity]).
  - destruct Hres as (res0 & (Hsum & Hp & Hf & Hle) & ->).
    assert (Hpass : overall_passed (finalize res0)
              = Some ((0 <? total_tests res0)
                      && (9 * total_tests res0 <=? 10 * passed_tests res0))).
    { unfold finalize. cbn [overall_passed]. f_equal.
      destruct (Z.ltb_spec 0 (total_tests res0)) as [Hpos|Hzero]; cbn [andb].
      - apply threshold_exact; lia.
      - reflexivity. }
    cbn [total_tests passed_tests finalize] in *.
    split; [intros _; exact Hpass|].
    unfold generate_report. rewrite Hpass. cbn [success_rate finalize default].
    destruct (save_results_raises W);
      [cbn [fst]; split; [split; [discriminate|intros (_ & _ & [=] & _)]
                         |reflexivity]|].
    destruct (save_report_raises W);
      [cbn [fst]; split; [split; [discriminate|intros (_ & _ & _ & [=] & _)]
                         |reflexivity]|].
    destruct (print_raises W);
      [cbn [fst]; split; [split; [discriminate|intros (_ & _ & _ & _ & [=])]
                         |reflexivity]|].
    cbn [fst].
    destruct ((0 <? total_tests res0)
              && (9 * total_tests res0 <=? 10 * passed_tests res0)).
    + split; [tauto|intros H; by destruct H].
    + split; [split; [discriminate|intros (_ & [=] & _)]|reflexivity].
Qed.

(** ** The order of the starts *)

Lemma hoare_projection_total {A C} P (Q : A -> Prop) (m : M A)
    (g : Event -> option C) (xs : list C) :
  triple False P Q m ->
  (forall e, P e -> g e = None) ->
  hoare (fun r => omap g (trace r) = xs) m
        (fun a r => omap g (trace r) = xs /\ Q a)
        (fun _ => False).
Proof.
  intros Hm Hg.
  eapply hoare_conseq;
    [exact (hoare_and _ _ _ _ _ _ _
              (hoare_projection False P Q m g xs Hm Hg)
              (hoare_of_triple _ _ _ _ Hm))| | |]; cbn beta; tauto.
Qed.

Lemma attempted_prefix technologies W l :
  attempted technologies W l `prefix_of` l.
Proof.
  induction l as [|k rest IH]; cbn [attempted]; [reflexivity|].
  apply prefix_cons.
  destruct (critical_failure technologies W k); [apply prefix_nil|exact IH].
Qed.

Lemma attempted_all technologies W l :
  existsb (critical_failure technologies W) l = false ->
  attempted technologies W l = l.
Proof.
  induction l as [|k rest IH]; cbn [attempted existsb]; [reflexivity|].
  intros [Hk Hrest]%orb_false_iff. rewrite Hk. f_equal. auto.
Qed.

Section StartSequence.

Variable W : World.

Lemma start_service_attempt k xs :
  k ∈ start_order ->
  hoare (fun r => start_attempts (trace r) = xs)
        (start_service default_technologies W k)
        (fun ok r => start_attempts (trace r) = xs ++ [k] /\
                     critical_failure default_technologies W k
                     = match assoc default_technologies k with
                       | Some c => critical c && negb ok
                       | None => false
                       end)
        (fun _ => False).
Proof.
  intros Hk r Hr.
  destruct (stop_order_in_registry k (start_order_stop_order k Hk)) as [c Hc].
  destruct (start_service_exact default_technologies W k c r Hc)
    as (evs & Hout & Hatt & _).
  rewrite Hout. cbn [fst snd trace]. split.
  - unfold start_attempts in *. by rewrite omap_app, Hr, Hatt.
  - unfold critical_failure. by rewrite Hc.
Qed.

Lemma quiet_step {A} (Q : A -> Prop) (m : M A) xs :
  triple False handler_event Q m ->
  hoare (fun r => start_attempts (trace r) = xs) m
        (fun a r => start_attempts (trace r) = xs /\ Q a)
        (fun _ => False).
Proof.
  intros Hm. apply (hoare_projection_total handler_event Q m _ xs Hm).
  intros e. destruct e; cbn; tauto.
Qed.

Lemma start_loop_attempts l : forall started xs,
  (forall k, k ∈ l -> k ∈ start_order) ->
  hoare (fun r => start_attempts (trace r) = xs)
        (start_loop default_technologies W l started)
        (fun _ r => start_attempts (trace r)
                    = xs ++ attempted default_technologies W l)
        (fun _ => False).
Proof.
  induction l as [|k rest IH]; intros started xs Hl; cbn [start_loop attempted].
  - apply hoare_ret. intros r ->. by rewrite app_nil_r.
  - assert (Hk : k ∈ start_order) by apply Hl, list_elem_of_here.
    assert (Hrest : forall k', k' ∈ rest -> k' ∈ start_order)
      by (intros k' Hk'; apply Hl; by right).
    destruct (stop_order_in_registry k (start_order_stop_order k Hk))
      as [c Hc].
    eapply hoare_bind; [by apply start_service_attempt|]. intros ok.
    apply hoare_pure. rewrite Hc. intros Hcf.
    eapply hoare_bind.
    { apply quiet_step, checkpoint_triple, default_stop_order_declared. }
    intros ?. apply hoare_pure. intros _.
    assert (Hnext : forall started',
              hoare (fun r => start_attempts (trace r) = xs ++ [k])
                    (start_loop default_technologies W rest started')
                    (fun _ r => start_attempts (trace r)
                                = xs ++ k :: attempted default_technologies W rest)
                    (fun _ => False)).
    { intros started'.
      eapply hoare_conseq; [apply (IH started' (xs ++ [k]) Hrest)|tauto| |tauto].
      intros o r ->. by rewrite <- app_assoc. }
    destruct ok.
    + rewrite Hcf, andb_false_r. apply Hnext.
    + eapply hoare_bind.
      { apply quiet_step, lookup_tech_triple. unfold declared. congruence. }
      intros c'. apply hoare_pure. rewrite Hc. intros [= <-].
      eapply hoare_bind.
      { apply quiet_step, triple_emit with (Q := fun _ => True); cbn; auto. }
      intros ?. apply hoare_pure. intros _.
      rewrite Hcf, andb_true_r.
      destruct (critical c); [|apply Hnext].
      eapply hoare_bind.
      { apply quiet_step, triple_emit with (Q := fun _ => True); cbn; auto. }
      intros ?. apply hoare_pure. intros _.
      eapply hoare_bind.
      { apply quiet_step. eapply triple_events;
          [apply stop_all_services_triple, default_stop_order_declared|].
        apply stop_event_handler. }
      intros ?. apply hoare_pure. intros _.
      apply hoare_ret. auto.
Qed.

Lemma run_integration_tests_attempts :
  hoare (fun r => start_attempts (trace r) = [])
        (run_integration_tests default_technologies W)
        (fun _ r => start_attempts (trace r)
                    = attempted default_technologies W start_order)
        (fun _ => False).
Proof.
  assert (Hstep : forall {A} (Q : A -> Prop) P (m : M A) xs,
            triple False P Q m ->
            (forall e, P e -> match e with EvStartService _ => False
                                          | _ => True end) ->
            hoare (fun r => start_attempts (trace r) = xs) m
                  (fun a r => start_attempts (trace r) = xs /\ Q a)
                  (fun _ => False)).
  { intros A Q P m xs Hm HP.
    apply (hoare_projection_total P Q m _ xs Hm).
    intros e He. specialize (HP e He). by destruct e. }
  unfold run_integration_tests.
  eapply hoare_bind.
  { eapply hoare_conseq;
      [exact (hoare_and _ _ _ _ _ _ _
                (start_loop_attempts start_order [] [] (fun _ H => H))
                (hoare_of_triple _ _ _ _
                   (start_loop_triple default_technologies W False
                      default_stop_order_declared start_order []
                      default_start_order_declared)))
      | | |]; cbn beta; [tauto|intros o r H; exact H|tauto]. }
  intros o. apply hoare_pure. intros ->. cbn [app].
  destruct (existsb _ start_order); [by apply hoare_ret|].
  eapply hoare_bind.
  { apply quiet_step, checkpoint_triple, default_stop_order_declared. }
  intros ?. apply hoare_pure. intros _.
  eapply hoare_bind.
  { eapply (Hstep _ _ test_phase_event).
    - apply (test_loop_triple default_technologies W False
               default_stop_order_declared _ 0 initial_results).
      + apply started_in_declared, default_start_order_declared.
      + apply counters_initial.
    - intros e. by destruct e. }
  intros res1. apply hoare_pure. intros Hres1.
  eapply hoare_bind.
  { eapply (Hstep _ _ (comm_phase_event _)).
    - apply (comm_loop_triple default_technologies W False
               default_stop_order_declared communication_pairs _ _ res1 Hres1).
    - intros e. by destruct e. }
  intros res2. apply hoare_pure. intros _.
  eapply hoare_bind.
  { apply quiet_step. eapply triple_events;
      [apply stop_all_services_triple, default_stop_order_declared|].
    apply stop_event_handler. }
  intros ?. apply hoare_pure. intros _.
  apply hoare_ret. auto.
Qed.

End StartSequence.

(** X6. The services are started strictly in [start_order], each at most
    once: the sequence of [start_service] calls of a run is [start_order]
    cut after the first critical service whose start fails. When no
    critical start fails, every service is attempted, whatever happens to
    the non-critical ones. *)
Theorem start_sequence (W : World) :
  let tr := trace (snd (run_integration_tests default_technologies W init_runner)) in
  start_attempts tr = attempted default_technologies W start_order /\
  start_attempts tr `prefix_of` start_order /\
  NoDup (start_attempts tr) /\
  (aborts default_technologies W = false -> start_attempts tr = start_order).
Proof.
  intros tr.
  pose proof (run_integration_tests_attempts W init_runner eq_refl) as Hrun.
  destruct (fst (run_integration_tests default_technologies W init_runner));
    [|contradiction].
  fold tr in Hrun. rewrite Hrun.
  pose proof (attempted_prefix default_technologies W start_order) as Hpre.
  split; [reflexivity|]. split; [exact Hpre|]. split.
  - destruct Hpre as [rest Hrest].
    pose proof start_order_NoDup as Hnd. rewrite Hrest in Hnd.
    by apply NoDup_app in Hnd as (Hnd & _).
  - apply attempted_all.
Qed.

(** ** A signal during start-up *)

Lemma bind_ok {A B} (m : M A) (k : A -> M B) r a r1 :
  m r = (Ok a, r1) -> bind m k r = k a r1.
Proof. intros Hm. unfold bind. by rewrite Hm. Qed.

Lemma no_signal_S W n len :
  no_signal W n (S len) = negb (signal_at W n) && no_signal W (S n) len.
Proof. reflexivity. Qed.

Lemma no_signal_snoc W n len :
  no_signal W n (S len) = no_signal W n len && negb (signal_at W (n + len)).
Proof.
  unfold no_signal. rewrite seq_S, forallb_app. cbn. by rewrite andb_true_r.
Qed.

Lemma no_signal_false W n len i :
  (n <= i < n + len)%nat -> signal_at W i = true -> no_signal W n len = false.
Proof.
  intros Hi Hsig. unfold no_signal.
  destruct (forallb _ _) eqn:Hall; [|reflexivity].
  rewrite forallb_forall in Hall. specialize (Hall i).
  rewrite Hsig in Hall.
  assert (Hin : In i (seq n len)) by (apply in_seq; lia).
  discriminate (Hall Hin).
Qed.

Section Cancellation.

Variable W : World.

Lemma flags_keeps {A} (Q : A -> Prop) P (m : M A) n b :
  keeps (fun r => (running r, clock r)) m ->
  triple False P Q m ->
  hoare (flags n b) m (fun a r => flags n b r /\ Q a) (fun _ => False).
Proof.
  intros Hkeep Hm r [Hn Hb].
  destruct (Hm r) as (_ & _ & _ & Hout). specialize (Hkeep r).
  injection Hkeep as Hrun Hclock.
  destruct (fst (m r)); [|contradiction].
  unfold flags. rewrite Hrun, Hclock. auto.
Qed.

Lemma stop_all_services_flags n b :
  hoare (flags n b) (stop_all_services default_technologies)
        (fun _ r => flags n b r /\ True) (fun _ => False).
Proof.
  exact (flags_keeps (fun _ => True) stop_event _ n b
           (stop_loop_keeps_flag default_technologies stop_order)
           (stop_all_services_triple default_technologies False
              default_stop_order_declared)).
Qed.

Lemma checkpoint_flags n b :
  hoare (flags n b) (checkpoint default_technologies W)
        (fun _ => flags (S n) (b && negb (signal_at W n))) (fun _ => False).
Proof.
  intros r [<- <-]. unfold checkpoint.
  destruct (signal_at W (clock r)).
  - set (r' := {| processes := processes r; running := running r;
                  clock := S (clock r); trace := trace r |}).
    assert (Hhandler : hoare (flags (S (clock r)) (running r))
              (_signal_handler default_technologies)
              (fun _ => flags (S (clock r)) false) (fun _ => False)).
    { unfold _signal_handler.
      eapply hoare_bind with (Q1 := fun _ => flags (S (clock r)) (running r));
        [intros r0 Hr0; exact Hr0|]. intros ?.
      eapply hoare_bind with (Q1 := fun _ => flags (S (clock r)) false);
        [intros r0 [Hc0 _]; split; [exact Hc0|reflexivity]|]. intros ?.
      eapply hoare_conseq;
        [apply (stop_all_services_flags (S (clock r)) false)|auto| |auto].
      intros ? r0 [Hr0 _]. exact Hr0. }
    rewrite andb_false_r. apply (Hhandler r'). by split.
  - rewrite andb_true_r. by split.
Qed.

Lemma start_loop_flags l : forall started n b,
  (forall k, k ∈ l -> k ∈ start_order) ->
  hoare (flags n b) (start_loop default_technologies W l started)
        (fun o r => match o with
                    | Some _ => flags (n + length l)
                                  (b && no_signal W n (length l)) r
                    | None => True
                    end)
        (fun _ => False).
Proof.
  induction l as [|k rest IH]; intros started n b Hl; cbn [start_loop].
  - apply hoare_ret. intros r [Hn Hb]. cbn.
    rewrite Nat.add_0_r, andb_true_r. by split.
  - assert (Hk : declared default_technologies False k).
    { pose proof default_start_order_declared as H.
      rewrite Forall_forall in H. apply H, Hl, list_elem_of_here. }
    assert (Hrest : forall k', k' ∈ rest -> k' ∈ start_order)
      by (intros k' Hk'; apply Hl; by right).
    assert (Hnext : forall started',
              hoare (flags (S n) (b && negb (signal_at W n)))
                (start_loop default_technologies W rest started')
                (fun o r => match o with
                            | Some _ => flags (n + length (k :: rest))
                                          (b && no_signal W n (length (k :: rest))) r
                            | None => True
                            end)
                (fun _ => False)).
    { intros started'.
      eapply hoare_conseq;
        [apply (IH started' (S n) (b && negb (signal_at W n)) Hrest)
        |auto| |auto].
      intros [s|] r; [|auto]. cbn [length].
      rewrite no_signal_S, andb_assoc, Nat.add_succ_r. auto. }
    eapply hoare_bind.
    { eapply flags_keeps;
        [apply start_service_keeps_flag
        |by apply (start_service_triple default_technologies W False)]. }
    intros ok. apply hoare_pure. intros _.
    eapply hoare_bind; [apply checkpoint_flags|]. intros ?.
    destruct ok; [apply Hnext|].
    eapply hoare_bind.
    { eapply flags_keeps;
        [apply keeps_lookup_tech
        |by apply (lookup_tech_triple default_technologies False
                     (fun _ => True))]. }
    intros c. apply hoare_pure. intros _.
    eapply hoare_bind with (Q1 := fun _ => flags (S n) (b && negb (signal_at W n)));
      [intros r Hr; exact Hr|]. intros ?.
    destruct (critical c); [|apply Hnext].
    eapply hoare_bind with (Q1 := fun _ => flags (S n) (b && negb (signal_at W n)));
      [intros r Hr; exact Hr|]. intros ?.
    eapply hoare_bind; [apply stop_all_services_flags|]. intros ?.
    by apply hoare_ret.
Qed.

Lemma test_loop_idle l res r :
  running r = false ->
  test_loop default_technologies W l res r = (Ok res, r).
Proof.
  intros Hr. destruct l as [|k rest]; [reflexivity|].
  cbn [test_loop]. unfold bind, get_running. by rewrite Hr.
Qed.

Lemma comm_loop_idle pairs started res r :
  running r = false ->
  comm_loop default_technologies W pairs started res r = (Ok res, r).
Proof.
  intros Hr. destruct pairs as [|[tech1 tech2] rest]; [reflexivity|].
  cbn [comm_loop]. unfold bind, get_running. by rewrite Hr.
Qed.

Lemma probes_none (P : Event -> Prop) evs :
  Forall P evs -> (forall e, P e -> is_probe e = false) -> probes evs = [].
Proof.
  intros Hevs HP. unfold probes. apply omap_none. intros e He.
  rewrite Forall_forall in Hevs. by rewrite (HP e (Hevs e He)).
Qed.

End Cancellation.

(** X9. What the [running] flag does achieve. When a signal is delivered
    at one of the first eleven checkpoints (after one of the ten
    [start_service] calls or after the readiness wait), the run issues no
    health, performance, stress or communication probe at all. If it is
    not cut short by a critical start failure, it returns the record of an
    empty run (0 checks, success rate 0, overall_passed false), with
    [running] still false at the end. *)
Theorem signal_during_startup (W : World) (n : nat) :
  (n <= 10)%nat -> signal_at W n = true ->
  let out := run_integration_tests default_technologies W init_runner in
  probes (trace (snd out)) = [] /\
  (aborts default_technologies W = false ->
   fst out = Ok (finalize initial_results) /\
   running (snd out) = false) /\
  total_tests (finalize initial_results) = 0 /\
  overall_passed (finalize initial_results) = Some false.
Proof.
  intros Hn Hsig out.
  assert (Hquiet : forall e, handler_event e -> is_probe e = false)
    by (intros e; by destruct e).
  destruct (start_loop_triple default_technologies W False
              default_stop_order_declared start_order []
              default_start_order_declared init_runner)
    as (evs1 & Htr1 & Hevs1 & Hval1).
  pose proof (start_loop_flags W start_order [] 0 true (fun _ H => H)
                init_runner (conj eq_refl eq_refl)) as Hfl1.
  destruct (start_loop default_technologies W start_order [] init_runner)
    as [[o|e] r1] eqn:Hstart; cbn [fst snd] in *; [|contradiction].
  fold (aborts default_technologies W) in Hval1.
  cbn [trace init_runner app] in Htr1.
  assert (Hp1 : probes evs1 = []).
  { eapply probes_none; [exact Hevs1|]. intros e. by destruct e. }
  destruct (aborts default_technologies W) eqn:Habort; subst o.
  - assert (Hout : out = (Ok initial_results, r1)).
    { unfold out, run_integration_tests. by rewrite (bind_ok _ _ _ _ _ Hstart). }
    rewrite Hout. cbn [fst snd]. rewrite Htr1.
    split; [exact Hp1|]. split; [discriminate|split; reflexivity].
  - change (0 + length start_order)%nat with 10%nat in Hfl1.
    change (length start_order) with 10%nat in Hfl1.
    pose proof (checkpoint_flags W _ _ r1 Hfl1) as Hfl2.
    destruct (checkpoint_triple default_technologies W False
                default_stop_order_declared r1)
      as (evs2 & Htr2 & Hevs2 & Hout2).
    destruct (checkpoint default_technologies W r1) as [[[]|e] r2] eqn:Hcp;
      cbn [fst snd] in *; [|contradiction].
    assert (Hrun2 : running r2 = false).
    { destruct Hfl2 as [_ ->]. cbn [andb].
      change (no_signal W 0 10 && negb (signal_at W (0 + 10)) = false).
      rewrite <- (no_signal_snoc W 0 10).
      apply (no_signal_false W 0 11 n); [lia|exact Hsig]. }
    destruct (stop_all_services_triple default_technologies False
                default_stop_order_declared r2)
      as (evs3 & Htr3 & Hevs3 & Hout3).
    pose proof (stop_loop_keeps_flag default_technologies stop_order r2)
      as Hkeep3.
    fold (stop_all_services default_technologies) in Hkeep3.
    destruct (stop_all_services default_technologies r2) as [[[]|e] r3]
      eqn:Hstop; cbn [fst snd] in *; [|contradiction].
    assert (Hout : out = (Ok (finalize initial_results), r3)).
    { unfold out, run_integration_tests.
      rewrite (bind_ok _ _ _ _ _ Hstart). cbv beta iota.
      rewrite (bind_ok _ _ _ _ _ Hcp).
      rewrite (bind_ok _ _ _ _ _ (test_loop_idle W _ initial_results r2 Hrun2)).
      rewrite (bind_ok _ _ _ _ _
                 (comm_loop_idle W communication_pairs _ initial_results r2 Hrun2)).
      by rewrite (bind_ok _ _ _ _ _ Hstop). }
    rewrite Hout. cbn [fst snd].
    split; [|split; [|split; reflexivity]].
    + rewrite Htr3, Htr2, Htr1. unfold probes in *.
      rewrite !omap_app, Hp1.
      fold (probes evs2). fold (probes evs3).
      rewrite (probes_none handler_event evs2 Hevs2 Hquiet).
      rewrite (probes_none stop_event evs3 Hevs3);
        [reflexivity|]. intros e He. apply Hquiet, stop_event_handler, He.
    + intros _. split; [reflexivity|]. injection Hkeep3 as -> _. exact Hrun2.
Qed.

Lemma signal_during_startup_witness :
  let out := run_integration_tests default_technologies
               (with_signal 0 good_world) init_runner in
  probes (trace (snd out)) = [] /\ fst out = Ok (finalize initial_results).
Proof.
  intros out.
  destruct (signal_during_startup (with_signal 0 good_world) 0)
    as (Hprobes & Hrun & _); [lia|reflexivity|].
  split; [exact Hprobes|]. apply Hrun. vm_compute. reflexivity.
Defined.


(** ** The number of checks of an undisturbed run *)

Section Counting.

Variable W : World.
Hypothesis W_calm : calm W.

Lemma checkpoint_calm r :
  checkpoint default_technologies W r =
    (Ok tt, {| processes := processes r; running := running r;
               clock := S (clock r); trace := trace r |}).
Proof. unfold checkpoint. by rewrite W_calm. Qed.

Lemma checkpoint_keeps_running :
  keeps running (checkpoint default_technologies W).
Proof. intros r. by rewrite checkpoint_calm. Qed.

Lemma keeps_core_running {A} (m : M A) : keeps core m -> keeps running m.
Proof. intros Hm r. specialize (Hm r). unfold core in Hm. congruence. Qed.

Lemma test_body_keeps_running k res :
  keeps running (test_body default_technologies W k res).
Proof.
  unfold test_body.
  apply keeps_bind; [apply keeps_lookup_tech|]. intros c.
  apply keeps_bind;
    [apply keeps_core_running, check_service_health_keeps|]. intros hm.
  apply keeps_bind; [apply checkpoint_keeps_running|]. intros ?.
  apply keeps_bind.
  { destruct (fst hm); [|apply keeps_ret].
    apply keeps_bind;
      [apply keeps_core_running, run_performance_test_keeps|]. intros ?.
    apply keeps_bind; [apply checkpoint_keeps_running|]. intros ?.
    apply keeps_ret. }
  intros pr.
  apply keeps_bind.
  { destruct (fst hm); [|apply keeps_ret].
    apply keeps_bind;
      [apply keeps_core_running, run_stress_test_keeps|]. intros ?.
    apply keeps_bind; [apply checkpoint_keeps_running|]. intros ?.
    apply keeps_ret. }
  intros sr.
  apply keeps_bind; [apply checkpoint_keeps_running|]. intros ?.
  apply keeps_ret.
Qed.

Lemma test_loop_counted l : forall res,
  (forall k, k ∈ l -> k ∈ start_order) ->
  hoare (fun r => running r = true)
        (test_loop default_technologies W l res)
        (fun res' r =>
           running r = true /\
           total_tests res'
             = total_tests res + probe_checks default_technologies W l /\
           failed_tests res + unhealthy_count default_technologies W l
             <= failed_tests res' /\
           passed_tests res <= passed_tests res' /\
           communication_tests res' = communication_tests res)
        (fun _ => False).
Proof.
  induction l as [|k rest IH]; intros res Hl;
    cbn [test_loop probe_checks unhealthy_count foldr].
  - apply hoare_ret. intros r Hr. repeat split; auto; lia.
  - assert (Hk : declared default_technologies False k).
    { pose proof default_start_order_declared as H.
      rewrite Forall_forall in H. apply H, Hl, list_elem_of_here. }
    eapply hoare_bind with
      (Q1 := fun b r => b = true /\ running r = true).
    { intros r Hr. cbn. auto. }
    intros b. apply hoare_conseq with
      (I := fun r => running r = true /\ b = true)
      (Q := fun res' r =>
           running r = true /\
           total_tests res'
             = total_tests res
               + ((if healthy default_technologies W k then 3 else 1)
                  + probe_checks default_technologies W rest) /\
           failed_tests res
             + ((if healthy default_technologies W k then 0 else 1)
                + unhealthy_count default_technologies W rest)
             <= failed_tests res' /\
           passed_tests res <= passed_tests res' /\
           communication_tests res' = communication_tests res)
      (X := fun _ => False); [|tauto|auto|auto].
    apply hoare_pure. intros ->. cbn [negb].
    eapply hoare_bind.
    { exact (hoare_with_value _ _ _ _ _ _
               (hoare_keeps running (fun b => b = true) _
                  (test_body_keeps_running k res))
               (test_body_accounted default_technologies W False
                  default_stop_order_declared (fun _ => True)
                  (fun _ _ => I) k res Hk I (fun _ => conj I I))). }
    intros res1. cbn beta.
    apply hoare_conseq with
      (I := fun r => running r = true
                     /\ accounted default_technologies W k res res1)
      (Q := fun res' r =>
           running r = true /\
           total_tests res'
             = total_tests res
               + ((if healthy default_technologies W k then 3 else 1)
                  + probe_checks default_technologies W rest) /\
           failed_tests res
             + ((if healthy default_technologies W k then 0 else 1)
                + unhealthy_count default_technologies W rest)
             <= failed_tests res' /\
           passed_tests res <= passed_tests res' /\
           communication_tests res' = communication_tests res)
      (X := fun _ => False); [|auto|auto|tauto].
    apply hoare_pure.
    intros (Ht & Hs & Hp & Hf & Hun & _ & _ & Hcomm).
    eapply hoare_conseq;
      [apply (IH res1); intros k' Hk'; apply Hl; by right|auto| |auto].
    intros res' r (Hr & Ht' & Hf' & Hp' & Hcomm'). cbn beta.
    split; [exact Hr|].
    destruct (healthy default_technologies W k).
    + repeat split; try lia; congruence.
    + specialize (Hun eq_refl). repeat split; try lia; congruence.
Qed.

Lemma comm_body_keeps_running started tech1 tech2 res :
  keeps running (comm_body default_technologies W started tech1 tech2 res).
Proof.
  unfold comm_body. destruct (_ && _); [|apply keeps_ret].
  apply keeps_bind;
    [apply keeps_core_running, test_service_communication_keeps|]. intros b.
  apply keeps_bind; [apply checkpoint_keeps_running|]. intros ?.
  apply keeps_ret.
Qed.

Lemma comm_body_counted started tech1 tech2 res :
  triple False (fun _ => True)
    (fun res' =>
       total_tests res'
         = total_tests res
           + (if bool_decide (tech1 ∈ started) && bool_decide (tech2 ∈ started)
              then 1 else 0) /\
       passed_tests res <= passed_tests res' /\
       failed_tests res <= failed_tests res')
    (comm_body default_technologies W started tech1 tech2 res).
Proof.
  unfold comm_body.
  destruct (bool_decide_reflect (tech1 ∈ started)) as [H1|H1]; cbn [andb];
    [destruct (bool_decide_reflect (tech2 ∈ started)) as [H2|H2]|];
    [|apply triple_ret; lia..].
  eapply triple_bind.
  { eapply triple_events;
      [by apply (test_service_communication_triple default_technologies W
                   False started tech1 tech2)|auto]. }
  intros b _.
  eapply triple_bind.
  { eapply triple_events;
      [apply (checkpoint_triple default_technologies W False
                default_stop_order_declared)|auto]. }
  intros _ _. apply triple_ret. destruct b; cbn; lia.
Qed.

Lemma comm_loop_counted pairs : forall started res,
  hoare (fun r => running r = true)
        (comm_loop default_technologies W pairs started res)
        (fun res' r =>
           running r = true /\
           total_tests res' = total_tests res + pair_checks pairs started /\
           passed_tests res <= passed_tests res' /\
           failed_tests res <= failed_tests res')
        (fun _ => False).
Proof.
  induction pairs as [|[tech1 tech2] rest IH]; intros started res;
    cbn [comm_loop pair_checks foldr fst snd].
  - apply hoare_ret. intros r Hr. repeat split; auto; lia.
  - eapply hoare_bind with
      (Q1 := fun b r => running r = true /\ b = true).
    { intros r Hr. cbn. auto. }
    intros b. apply hoare_pure. intros ->. cbn [negb].
    eapply hoare_bind.
    { exact (hoare_with_value _ _ _ _ _ _
               (hoare_keeps running (fun b => b = true) _
                  (comm_body_keeps_running started tech1 tech2 res))
               (comm_body_counted started tech1 tech2 res)). }
    intros res1. cbn beta. apply hoare_pure. intros (Ht & Hp & Hf).
    eapply hoare_conseq; [apply (IH started res1)|auto| |auto].
    intros res' r (Hr & Ht' & Hp' & Hf'). cbn beta.
    fold (pair_checks rest started). repeat split; auto; lia.
Qed.

Lemma no_signal_calm n len : no_signal W n len = true.
Proof.
  unfold no_signal. apply forallb_forall. intros i _. by rewrite W_calm.
Qed.

Lemma run_integration_tests_counted :
  aborts default_technologies W = false ->
  hoare (flags 0 true) (run_integration_tests default_technologies W)
        (fun res _ =>
           total_tests res
             = probe_checks default_technologies W
                 (started_in default_technologies W start_order)
               + pair_checks communication_pairs
                   (started_in default_technologies W start_order) /\
           unhealthy_count default_technologies W
             (started_in default_technologies W start_order)
             <= failed_tests res /\
           is_Some (success_rate res) /\ is_Some (overall_passed res))
        (fun _ => False).
Proof.
  intros Habort. unfold run_integration_tests.
  eapply hoare_bind.
  { exact (hoare_with_value _ _ _ _ _ _
             (start_loop_flags W start_order [] 0 true (fun _ H => H))
             (start_loop_triple default_technologies W False
                default_stop_order_declared start_order []
                default_start_order_declared)). }
  intros o. cbn beta. fold (aborts default_technologies W). rewrite Habort.
  apply hoare_conseq with
    (I := fun r => running r = true
                   /\ o = Some ([] ++ started_in default_technologies W start_order))
    (Q := fun res (_ : Runner) =>
           total_tests res
             = probe_checks default_technologies W
                 (started_in default_technologies W start_order)
               + pair_checks communication_pairs
                   (started_in default_technologies W start_order) /\
           unhealthy_count default_technologies W
             (started_in default_technologies W start_order)
             <= failed_tests res /\
           is_Some (success_rate res) /\ is_Some (overall_passed res))
    (X := fun _ => False); [| |auto|auto].
  2:{ intros r [Hfl ->]. split; [|reflexivity].
      destruct Hfl as [_ ->]. by rewrite no_signal_calm. }
  apply hoare_pure. intros ->. cbn [app].
  eapply hoare_bind with (Q1 := fun _ r => running r = true).
  { intros r Hr. rewrite checkpoint_calm. exact Hr. }
  intros ?. cbn beta.
  eapply hoare_bind.
  { apply test_loop_counted. intros k. apply started_in_start_order. }
  intros res1. cbn beta.
  apply hoare_conseq with
    (I := fun r => running r = true /\
                   (total_tests res1
                      = probe_checks default_technologies W
                          (started_in default_technologies W start_order) /\
                    unhealthy_count default_technologies W
                      (started_in default_technologies W start_order)
                      <= failed_tests res1))
    (Q := fun res (_ : Runner) =>
           total_tests res
             = probe_checks default_technologies W
                 (started_in default_technologies W start_order)
               + pair_checks communication_pairs
                   (started_in default_technologies W start_order) /\
           unhealthy_count default_technologies W
             (started_in default_technologies W start_order)
             <= failed_tests res /\
           is_Some (success_rate res) /\ is_Some (overall_passed res))
    (X := fun _ => False); [| |auto|auto].
  2:{ intros r (Hr & Ht & Hf & _). cbn in Ht, Hf. repeat split; auto; lia. }
  apply hoare_pure. intros [Ht1 Hf1].
  eapply hoare_bind; [apply comm_loop_counted|].
  intros res2. cbn beta.
  eapply hoare_bind with
    (Q1 := fun _ r => running r = true /\
                      total_tests res2
                        = total_tests res1
                          + pair_checks communication_pairs
                              (started_in default_technologies W start_order) /\
                      passed_tests res1 <= passed_tests res2 /\
                      failed_tests res1 <= failed_tests res2).
  { intros r Hr.
    destruct (stop_all_services_triple default_technologies False
                default_stop_order_declared r) as (_ & _ & _ & Hout).
    pose proof (stop_loop_keeps_flag default_technologies stop_order r)
      as Hkeep.
    fold (stop_all_services default_technologies) in Hkeep.
    destruct (fst (stop_all_services default_technologies r));
      [|contradiction].
    injection Hkeep as -> _. exact Hr. }
  intros ?. apply hoare_ret. intros r (_ & Ht2 & _ & Hf2).
  unfold finalize.
  cbn [total_tests failed_tests success_rate overall_passed].
  repeat split; eauto; lia.
Qed.



End Counting.

(** X10. The number of checks of an undisturbed run. When no signal is
    delivered and no critical start fails, the run probes every service
    whose start succeeded and returns a finalised record in which
    total_tests is three per healthy such service, one per unhealthy one,
    plus one per communication pair whose two endpoints both started;
    every unhealthy service accounts for a failed check. *)
Theorem check_count (W : World) :
  calm W ->
  aborts default_technologies W = false ->
  let started_services := started_in default_technologies W start_order in
  exists res,
    fst (run_integration_tests default_technologies W init_runner) = Ok res /\
    total_tests res
      = probe_checks default_technologies W started_services
        + pair_checks communication_pairs started_services /\
    unhealthy_count default_technologies W started_services
      <= failed_tests res /\
    is_Some (success_rate res) /\ is_Some (overall_passed res).
Proof.
  intros Hcalm Habort started_services.
  pose proof (run_integration_tests_counted W Hcalm Habort init_runner
                (conj eq_refl eq_refl)) as Hrun.
  destruct (fst (run_integration_tests default_technologies W init_runner))
    as [res|]; [|contradiction].
  exists res. split; [reflexivity|exact Hrun].
Qed.

Lemma check_count_witness :
  exists res,
    fst (run_integration_tests default_technologies
           (with_health 8082 (Response 500 "") good_world) init_runner)
      = Ok res /\
    total_tests res = 32 /\ 1 <= failed_tests res.
Proof.
  destruct (check_count (with_health 8082 (Response 500 "") good_world))
    as (res & Hrun & Htotal & Hfailed & _).
  - intros i. reflexivity.
  - vm_compute. reflexivity.
  - exists res. split; [exact Hrun|]. split.
    + rewrite Htotal. vm_compute. reflexivity.
    + etransitivity; [|exact Hfailed]. vm_compute. discriminate.
Defined.

(** ** Signal handler and single stops *)

(** X11. The signal handler, on the shipped registry, never raises and
    returns to the interrupted code: it clears [running], leaves the clock
    alone and tears down exactly as [stop_all_services] does, stopping the
    services that have a process entry in [stop_order]'s order and keeping
    only the entries of the processes whose stop raised. *)
Theorem signal_handler_effect (r : Runner) :
  let out := _signal_handler default_technologies r in
  fst out = Ok tt /\
  running (snd out) = false /\
  exists evs,
    trace (snd out) = trace r ++ EvSignal :: evs /\
    terminations evs = filter (fun k => is_Some (processes r !! k)) stop_order /\
    (forall k, k ∈ stop_order ->
       processes (snd out) !! k = after_stop (processes r !! k)).
Proof.
  intros out.
  set (r' := {| processes := processes r; running := false;
                clock := clock r; trace := trace r ++ [EvSignal] |}).
  assert (Hout : out = stop_all_services default_technologies r')
    by reflexivity.
  destruct (stop_loop_exact default_technologies stop_order r'
              stop_order_NoDup stop_order_in_registry)
    as (evs & Hok & Hrun & Hps & Htr & Hterm & _).
  fold (stop_all_services default_technologies) in *.
  rewrite Hout. split; [exact Hok|]. split; [exact Hrun|].
  exists evs. split; [|split].
  - rewrite Htr. unfold r'. cbn [trace]. by rewrite <- app_assoc.
  - exact Hterm.
  - intros k Hk. rewrite Hps. by rewrite bool_decide_eq_true_2.
Qed.

(** X12. [stop_service] on one service. With no process entry it is a
    no-op answering [True]. With an entry whose key the registry lacks it
    raises [KeyError] and changes nothing. Otherwise it sends terminate
    first and kill only to a process that outlived the grace window; it
    answers [True] and deletes the entry unless the stop raised, in which
    case it answers [False], logs one error and keeps the entry. The
    entries of the other services and the [running] flag are untouched. *)
Theorem stop_service_effect technologies k r :
  let out := stop_service technologies k r in
  match processes r !! k, assoc technologies k with
  | None, _ => out = (Ok true, r)
  | Some _, None => out = (Raised (KeyError k), r)
  | Some process, Some _ =>
      fst out = Ok (negb (raises_on_stop process)) /\
      processes (snd out) !! k = after_stop (Some process) /\
      (forall k', k' <> k -> processes (snd out) !! k' = processes r !! k') /\
      running (snd out) = running r /\
      exists evs,
        trace (snd out) = trace r ++ EvTerminate k :: evs /\
        (EvKill k ∈ evs <-> on_stop process = NeedsKill) /\
        length (error_lines evs)
          = (if raises_on_stop process then 1 else 0)%nat
  end.
Proof.
  intros out. unfold out, stop_service, bind, get_processes, lookup_tech.
  cbn [fst snd].
  destruct (processes r !! k) as [process|] eqn:Hp; [|reflexivity].
  destruct (assoc technologies k) as [c|]; [|reflexivity].
  unfold raises_on_stop, after_stop, raises_on_stop, logger_error, emit,
    set_processes, ret.
  destruct (on_stop process) as [| |e] eqn:Hstop; cbn.
  - split; [reflexivity|]. split; [apply lookup_delete_eq|].
    split; [intros k' Hne; by apply lookup_delete_ne|].
    split; [reflexivity|]. exists []. split; [reflexivity|].
    split; [|reflexivity]. split; [intros H; by apply elem_of_nil in H|discriminate].
  - split; [reflexivity|]. split; [apply lookup_delete_eq|].
    split; [intros k' Hne; by apply lookup_delete_ne|].
    split; [reflexivity|]. exists [EvKill k].
    split; [by rewrite <- app_assoc|].
    split; [|reflexivity]. split; [reflexivity|intros _; apply list_elem_of_here].
  - split; [reflexivity|]. split; [exact Hp|].
    split; [reflexivity|]. split; [reflexivity|].
    eexists [_]. split; [by rewrite <- app_assoc|].
    split; [|reflexivity].
    split; [intros H%list_elem_of_singleton; discriminate|discriminate].
Qed.

(** ** Completion order of the stress batch *)

Lemma sum_Permutation (results results' : list bool) :
  results ≡ₚ results' -> sum results = sum results'.
Proof. intros Hperm. unfold sum. by rewrite Hperm. Qed.

(** X13. The stress summary does not depend on the order in which the
    requests of the batch complete: two result lists that are
    permutations of each other give the same request count, success
    count, success rate and pass flag. *)
Theorem stress_summary_order (results results' : list bool) :
  results ≡ₚ results' -> stress_summary results = stress_summary results'.
Proof.
  intros Hperm. unfold stress_summary.
  by rewrite (sum_Permutation _ _ Hperm), (Permutation_length Hperm).
Qed.

Lemma stress_summary_order_witness :
  stress_summary [true; false; true] = stress_summary [false; true; true].
Proof.
  apply stress_summary_order.
  apply perm_trans with [false; true; true]; [apply perm_swap|reflexivity].
Defined.

(** ** The registry's dependencies and the run *)

Lemma assoc_with_dependencies f technologies k :
  assoc (with_dependencies f technologies) k
  = option_map (fun c => set_dependencies (f k (dependencies c)) c)
               (assoc technologies k).
Proof.
  induction technologies as [|[k' c] l IH]; [reflexivity|].
  cbn [with_dependencies map assoc fst snd option_map].
  destruct (String.eqb_spec k' k) as [->|Hne]; [reflexivity|exact IH].
Qed.

Lemma same_refl {A} (m : M A) : same m m.
Proof. intros r. reflexivity. Qed.

Lemma same_bind {A B} (m m' : M A) (k k' : A -> M B) :
  same m m' -> (forall a, same (k a) (k' a)) -> same (bind m k) (bind m' k').
Proof.
  intros Hm Hk r. unfold bind. rewrite (Hm r).
  destruct (m' r) as [[a|e] r1]; [apply Hk|reflexivity].
Qed.

Create HintDb deps discriminated.

Ltac same_step :=
  first
    [ solve [auto 1 with deps]
    | apply same_bind; [|intros ?]
    | match goal with
      | |- same (if ?b then _ else _) _ => destruct b
      | |- same (match ?x with _ => _ end) _ => destruct x
      end
    | apply same_refl ].

Section Dependencies.

Variable f : string -> list string -> list string.
Variable technologies : list (string * TechnologyConfig).
Variable W : World.

Lemma same_lookup {A} k (K K' : TechnologyConfig -> M A) :
  (forall c, same (K (set_dependencies (f k (dependencies c)) c)) (K' c)) ->
  same (bind (lookup_tech (with_dependencies f technologies) k) K)
       (bind (lookup_tech technologies k) K').
Proof.
  intros HK r. unfold bind, lookup_tech. rewrite assoc_with_dependencies.
  destruct (assoc technologies k) as [c|]; [apply HK|reflexivity].
Qed.

Lemma stop_service_deps k :
  same (stop_service (with_dependencies f technologies) k)
       (stop_service technologies k).
Proof.
  unfold stop_service. apply same_bind; [apply same_refl|]. intros ps.
  destruct (ps !! k); [|apply same_refl].
  apply same_lookup. intros c. apply same_refl.
Qed.

Lemma stop_loop_deps l :
  same (stop_loop (with_dependencies f technologies) l)
       (stop_loop technologies l).
Proof.
  induction l as [|k rest IH]; cbn [stop_loop]; [apply same_refl|].
  apply same_bind; [apply same_refl|]. intros ps.
  destruct (ps !! k); [|exact IH].
  apply same_bind; [apply stop_service_deps|]. intros _. exact IH.
Qed.

Lemma stop_all_services_deps :
  same (stop_all_services (with_dependencies f technologies))
       (stop_all_services technologies).
Proof. apply stop_loop_deps. Qed.

Lemma signal_handler_deps :
  same (_signal_handler (with_dependencies f technologies))
       (_signal_handler technologies).
Proof.
  unfold _signal_handler. apply same_bind; [apply same_refl|]. intros _.
  apply same_bind; [apply same_refl|]. intros _. apply stop_all_services_deps.
Qed.

Lemma checkpoint_deps :
  same (checkpoint (with_dependencies f technologies) W)
       (checkpoint technologies W).
Proof.
  intros r. unfold checkpoint.
  destruct (signal_at W (clock r)); [apply signal_handler_deps|reflexivity].
Qed.

Lemma start_service_deps k :
  same (start_service (with_dependencies f technologies) W k)
       (start_service technologies W k).
Proof. unfold start_service. apply same_lookup. intros c. apply same_refl. Qed.

Lemma check_service_health_deps k :
  same (check_service_health (with_dependencies f technologies) W k)
       (check_service_health technologies W k).
Proof.
  unfold check_service_health. apply same_lookup. intros c. apply same_refl.
Qed.

Lemma run_performance_test_deps k :
  same (run_performance_test (with_dependencies f technologies) W k)
       (run_performance_test technologies W k).
Proof.
  unfold run_performance_test. apply same_lookup. intros c. apply same_refl.
Qed.

Lemma run_stress_test_deps k :
  same (run_stress_test (with_dependencies f technologies) W k)
       (run_stress_test technologies W k).
Proof.
  unfold run_stress_test. apply same_lookup. intros c. apply same_refl.
Qed.

Lemma test_service_communication_deps tech1 tech2 :
  same (test_service_communication (with_dependencies f technologies) W
          tech1 tech2)
       (test_service_communication technologies W tech1 tech2).
Proof.
  unfold test_service_communication. rewrite !assoc_with_dependencies.
  destruct (assoc technologies tech1) as [c1|];
    [destruct (assoc technologies tech2) as [c2|]|]; apply same_refl.
Qed.

Hint Resolve stop_all_services_deps checkpoint_deps start_service_deps
  check_service_health_deps run_performance_test_deps run_stress_test_deps
  test_service_communication_deps : deps.

Lemma start_loop_deps l : forall started,
  same (start_loop (with_dependencies f technologies) W l started)
       (start_loop technologies W l started).
Proof.
  induction l as [|k rest IH]; intros started; cbn [start_loop];
    [apply same_refl|].
  apply same_bind; [apply start_service_deps|]. intros ok.
  apply same_bind; [apply checkpoint_deps|]. intros _.
  destruct ok; [apply IH|].
  apply same_lookup. intros c. cbn [name critical set_dependencies].
  apply same_bind; [apply same_refl|]. intros _.
  destruct (critical c); [|apply IH].
  repeat same_step.
Qed.

Lemma test_body_deps k res :
  same (test_body (with_dependencies f technologies) W k res)
       (test_body technologies W k res).
Proof.
  unfold test_body. apply same_lookup. intros c.
  cbn [name set_dependencies]. cbv zeta. repeat same_step.
Qed.

Lemma test_loop_deps l : forall res,
  same (test_loop (with_dependencies f technologies) W l res)
       (test_loop technologies W l res).
Proof.
  induction l as [|k rest IH]; intros res; cbn [test_loop]; [apply same_refl|].
  apply same_bind; [apply same_refl|]. intros running.
  destruct (negb running); [apply same_refl|].
  apply same_bind; [apply test_body_deps|]. intros res'. apply IH.
Qed.

Lemma comm_body_deps started tech1 tech2 res :
  same (comm_body (with_dependencies f technologies) W started tech1 tech2 res)
       (comm_body technologies W started tech1 tech2 res).
Proof. unfold comm_body. cbv zeta. repeat same_step. Qed.

Lemma comm_loop_deps pairs : forall started res,
  same (comm_loop (with_dependencies f technologies) W pairs started res)
       (comm_loop technologies W pairs started res).
Proof.
  induction pairs as [|[tech1 tech2] rest IH]; intros started res;
    cbn [comm_loop]; [apply same_refl|].
  apply same_bind; [apply same_refl|]. intros running.
  destruct (negb running); [apply same_refl|].
  apply same_bind; [apply comm_body_deps|]. intros res'. apply IH.
Qed.

Lemma run_integration_tests_deps :
  same (run_integration_tests (with_dependencies f technologies) W)
       (run_integration_tests technologies W).
Proof.
  unfold run_integration_tests.
  apply same_bind; [apply start_loop_deps|]. intros [started|];
    [|apply same_refl].
  apply same_bind; [apply checkpoint_deps|]. intros _.
  apply same_bind; [apply test_loop_deps|]. intros res1.
  apply same_bind; [apply comm_loop_deps|]. intros res2.
  apply same_bind; [apply stop_all_services_deps|]. intros _.
  apply same_refl.
Qed.

End Dependencies.

(** C8, as the code has it. The script sorts nothing and checks nothing:
    the run never reads the [dependencies] of the registry, so it is the
    same run whatever they are (cyclic, or naming undeclared ids), and on
    the shipped services it attempts the starts along the literal
    [start_order], cut after the first critical start failure. For the
    shipped registry the literal is a permutation of the service ids in
    which every service comes after all of its dependencies. It is not the
    order of declaration, which puts dependencies first as well. *)
Theorem C8_start_order_is_topological :
  (forall f technologies W r,
     run_integration_tests (with_dependencies f technologies) W r
     = run_integration_tests technologies W r) /\
  (forall f W,
     let tr := trace (snd (run_integration_tests
                             (with_dependencies f default_technologies) W
                             init_runner)) in
     start_attempts tr = attempted default_technologies W start_order /\
     start_attempts tr `prefix_of` start_order) /\
  start_order ≡ₚ map fst default_technologies /\
  NoDup start_order /\
  dependencies_first default_technologies [] start_order = true /\
  dependencies_first default_technologies [] (map fst default_technologies)
    = true /\
  start_order <> map fst default_technologies.
Proof.
  split; [intros f technologies W r; apply run_integration_tests_deps|].
  split.
  { intros f W tr. unfold tr. rewrite run_integration_tests_deps.
    pose proof (run_integration_tests_attempts W init_runner eq_refl) as Hrun.
    destruct (fst (run_integration_tests default_technologies W init_runner));
      [|contradiction].
    rewrite Hrun. split; [reflexivity|apply attempted_prefix]. }
  split; [|split; [exact start_order_NoDup
                  |split; [|split]; [vm_compute; reflexivity..|discriminate]]].
  apply NoDup_Permutation.
  - exact start_order_NoDup.
  - apply (bool_decide_unpack _). vm_compute. exact I.
  - intros k. split; intros Hk.
    + assert (H : Forall (fun k => k ∈ map fst default_technologies) start_order)
        by (apply (bool_decide_unpack _); vm_compute; exact I).
      rewrite Forall_forall in H. auto.
    + assert (H : Forall (fun k => k ∈ start_order) (map fst default_technologies))
        by (apply (bool_decide_unpack _); vm_compute; exact I).
      rewrite Forall_forall in H. auto.
Qed.
